(** * ParallelPrimeNumbers: a shallow embedding of [Prime.c]

    The program reads the number of online CPU cores, cuts the unsigned
    long number line into one slice per core, starts one thread per slice
    (pinned to its core) that writes the primes of its slice to a file of
    its own, and waits for the threads.  SIGQUIT sets a global flag that
    every thread polls in its loop condition.

    Integers are modelled as [Z] with the wrap-around of the C type written
    out; library calls whose result the program cannot control ([sysconf],
    [calloc], [pthread_create], [fopen], ...) are read from an environment
    record; loops carry fuel and come with a lemma that the fuel given by
    the caller is enough. *)

From Stdlib Require Import ZArith Zdivisibility List Lia Ascii String.
From stdpp Require Import base numbers list list_numbers sorting strings pretty.

Local Open Scope Z_scope.

(** ** Machine integers and platform constants (LP64 Linux) *)

Module Machine.

(** <limits.h>; [size_t] has the width of [unsigned long]. *)
Definition ULONG_MAX : Z := 2 ^ 64 - 1.
Definition UINT_MAX : Z := 2 ^ 32 - 1.
Definition SSIZE_MAX : Z := 2 ^ 63 - 1.

(** Conversion to [unsigned long] / [size_t]: reduction modulo 2^64. *)
Definition ulong (z : Z) : Z := z mod (ULONG_MAX + 1).

(** Conversion to [unsigned int]. *)
Definition uint (z : Z) : Z := z mod (UINT_MAX + 1).

(** <errno.h>, <stdlib.h>, <stdio.h>. *)
Definition EINVAL : Z := 22.
Definition EXIT_SUCCESS : Z := 0.
Definition EXIT_FAILURE : Z := 1.
Definition FILENAME_MAX : nat := 4096.

(** [sizeof(pthread_t)] and [sizeof(struct ThreadArguments)]. *)
Definition sizeof_pthread_t : Z := 8.
Definition sizeof_ThreadArguments : Z := 4 + 4 + 8 + 8 + Z.of_nat FILENAME_MAX.

(** The line feed written by ["\n"]. *)
Definition newline : string := String "010"%char EmptyString.

(** [a[i]] on an array of [length a] cells; outside the array the access
    is undefined in C and is reported as [None]. *)
Definition array_get {A} (a : list A) (i : Z) : option A :=
  if (0 <=? i) && (i <? Z.of_nat (length a)) then a !! Z.to_nat i else None.

(** [a[i] = x] for an index inside the array. *)
Definition array_set {A} (a : list A) (i : Z) (x : A) : list A :=
  <[Z.to_nat i := x]> a.

(** [calloc(nmemb, size)]: a zeroed array of [nmemb] cells, or NULL when
    the request overflows [size_t] or the allocator has no memory. *)
Definition calloc {A} (nmemb size : Z) (has_memory : bool) (zero : A)
  : option (list A) :=
  if has_memory && (nmemb * size <=? ULONG_MAX)
  then Some (replicate (Z.to_nat nmemb) zero) else None.

(** [snprintf(buf, size, ...)] keeps at most [size - 1] characters. *)
Definition snprintf (size : nat) (formatted : string) : string :=
  String.substring 0 (size - 1) formatted.

End Machine.
Import Machine.

(** ** The primality test *)

(** [for (denom = 2; denom < num; denom++) if (num % denom == 0) return 0;
    return 1;] seen from the loop test, with [denom] the current value.
    [None] means the fuel ran out before the loop was left. *)
Fixpoint IsPrimeNumber_loop (fuel : nat) (num denom : Z) : option Z :=
  match fuel with
  | O => None
  | S fuel' =>
      if denom <? num then
        if num mod denom =? 0 then Some 0
        else IsPrimeNumber_loop fuel' num (ulong (denom + 1))
      else Some 1
  end.

(** [int IsPrimeNumber(unsigned long num)]: the loop test is evaluated at
    most [num] times (never for [denom] below 2), so [num + 1] rounds of
    fuel are enough. *)
Definition IsPrimeNumber (num : Z) : option Z :=
  IsPrimeNumber_loop (S (Z.to_nat num)) num 2.

(** Some [denom] with [lo <= denom < num] divides [num] exactly. *)
Definition has_divisor_from (lo num : Z) : Prop :=
  exists denom, lo <= denom < num /\ num mod denom = 0.

(** ** Thread arguments and the slices of the number line *)

Record ThreadArguments := mkThreadArguments {
  threadNum : Z;
  cpuCoreNum : Z;
  beginCalculationsAt : Z;
  endCalculationsAt : Z;
  outputFileName : string
}.

(** [(ULONG_MAX / numberOfCpuCores)]: the signed count is converted to
    [unsigned long] by the division.  [domain_max] stands for the macro
    [ULONG_MAX] of <limits.h>; [main] passes [Machine.ULONG_MAX]. *)
Definition slice_size (domain_max numberOfCpuCores : Z) : Z :=
  domain_max / ulong numberOfCpuCores.

(** [(ULONG_MAX / numberOfCpuCores) * iter], in [unsigned long]. *)
Definition slice_begin (domain_max numberOfCpuCores iter : Z) : Z :=
  ulong (slice_size domain_max numberOfCpuCores * iter).

(** [beginCalculationsAt + (ULONG_MAX / numberOfCpuCores)], in
    [unsigned long]. *)
Definition slice_end (domain_max numberOfCpuCores iter : Z) : Z :=
  ulong (slice_begin domain_max numberOfCpuCores iter
         + slice_size domain_max numberOfCpuCores).

(** ["%s/PRIMES_THREAD_%lu.TXT"] printed into a buffer of [FILENAME_MAX]
    characters. *)
Definition output_file_name (cwd : string) (iter : Z) : string :=
  snprintf FILENAME_MAX
    (cwd +:+ "/PRIMES_THREAD_" +:+ pretty iter +:+ ".TXT").

(** Lines 96-101 of [main]: the arguments written for thread [iter]. *)
Definition fill_arguments (domain_max : Z) (cwd : string)
    (numberOfCpuCores iter : Z) : ThreadArguments :=
  {| threadNum := uint (iter + 1);
     cpuCoreNum := uint (iter + 1);
     beginCalculationsAt := slice_begin domain_max numberOfCpuCores iter;
     endCalculationsAt := slice_end domain_max numberOfCpuCores iter;
     outputFileName := output_file_name cwd iter |}.

(** The arguments of all threads, as the launch loop writes them for
    [iter = 0 .. count - 1] when no launch fails. *)
Definition partition (domain_max : Z) (cwd : string) (count : Z)
  : list ThreadArguments :=
  fill_arguments domain_max cwd count <$> seqZ 0 count.

(** [num] lies in the half-open range of an assignment. *)
Definition in_range (a : ThreadArguments) (num : Z) : Prop :=
  beginCalculationsAt a <= num < endCalculationsAt a.

(** The partition property as the specification states it for
    [partition(domain_max, count)] with [count >= 1]: [count] assignments;
    assignment [i] starts at [i * floor(domain_max / count)] and has
    [start < end]; every assignment but the last has size
    [floor(domain_max / count)]; assignments are ordered by index and
    pairwise disjoint; the end of the last one is the unclamped
    [count * floor(domain_max / count)], short of [domain_max] by at most
    [count - 1]. *)
Definition partition_as_specified (domain_max : Z) (cwd : string)
    (count : Z) : Prop :=
  let p := partition domain_max cwd count in
  let q := domain_max / count in
  length p = Z.to_nat count
  /\ (forall (i : nat) a, p !! i = Some a ->
        beginCalculationsAt a = Z.of_nat i * q
        /\ beginCalculationsAt a < endCalculationsAt a)
  /\ (forall (i : nat) a, p !! i = Some a -> (S i < length p)%nat ->
        endCalculationsAt a - beginCalculationsAt a = q)
  /\ (forall (i j : nat) a b, (i < j)%nat ->
        p !! i = Some a -> p !! j = Some b ->
        endCalculationsAt a <= beginCalculationsAt b)
  /\ (forall a, last p = Some a ->
        endCalculationsAt a = count * q
        /\ 0 <= domain_max - endCalculationsAt a <= count - 1).

(** The invariant of the data model as the specification states it: the
    ranges of the assignments cover [[0, domain_max)] and nothing else, and
    no number lies in two of them. *)
Definition covers_exactly (domain_max : Z) (cwd : string) (count : Z)
  : Prop :=
  let p := partition domain_max cwd count in
  (forall num, 0 <= num < domain_max <-> exists a, a ∈ p /\ in_range a num)
  /\ (forall (i j : nat) a b num,
        p !! i = Some a -> p !! j = Some b ->
        in_range a num -> in_range b num -> i = j).

(** ** Diagnostics on stderr *)

Inductive Diagnostic :=
| Err (status : Z) (msg : string)          (* err(status, msg) *)
| CreationResult (result : Z)              (* "Thread creation result = 0x%x." *)
| CancellationError (result : Z)           (* "Thread cancellation error: ..." *)
| JoinError (result : Z)                   (* "Thread join error: ..." *)
| CouldNotOpen (name : string) (thread : Z). (* "Could not open %s on thread %u." *)

(** ** The worker thread *)

(** What one run of [PrimeNumberGenerator] leaves behind: the content of
    its output file ([None] when the file was not opened, so neither
    created nor truncated), its lines on stderr, and the pointer it
    returns. *)
Record WorkerResult := mkWorkerResult {
  file : option string;
  diagnostics : list Diagnostic;
  retval : Z
}.

Definition NULL : Z := 0.

(** [fprintf(outputFile, "%lu\n", num)]. *)
Definition line (num : Z) : string := pretty num +:+ newline.

(** The text of a list of numbers, one per line. *)
Definition lines (nums : list Z) : string :=
  foldr (fun num rest => line num +:+ rest) "" nums.

(** The loop of [PrimeNumberGenerator] seen from its test
    [num < endCalculationsAt && !receivedQuitSignal].  [quit k] is the
    value of the volatile flag at the [k]-th time the test reads it; the
    flag is read only when [num < endCalculationsAt] holds, once per
    candidate, so [reads] is also the number of candidates done.  [out] is
    the text written so far. *)
Fixpoint PrimeNumberGenerator_loop (fuel : nat) (quit : nat -> Z)
    (reads : nat) (endAt num : Z) (out : string) : option string :=
  match fuel with
  | O => None
  | S fuel' =>
      if (num <? endAt) && (quit reads =? 0) then
        match IsPrimeNumber num with
        | None => None
        | Some prime =>
            PrimeNumberGenerator_loop fuel' quit (S reads) endAt
              (ulong (num + 1))
              (if prime =? 0 then out else out +:+ line num)
        end
      else Some out
  end.

(** [void* PrimeNumberGenerator(void* arg)].  [fopen_ok name] tells whether
    [fopen(name, "w")] succeeds. *)
Definition PrimeNumberGenerator (fopen_ok : string -> bool)
    (quit : nat -> Z) (threadArgs : ThreadArguments) : option WorkerResult :=
  if fopen_ok (outputFileName threadArgs) then
    match PrimeNumberGenerator_loop
            (S (Z.to_nat (endCalculationsAt threadArgs
                          - beginCalculationsAt threadArgs)))
            quit 0%nat (endCalculationsAt threadArgs)
            (beginCalculationsAt threadArgs) "" with
    | None => None
    | Some out => Some (mkWorkerResult (Some out) [] NULL)
    end
  else
    Some (mkWorkerResult None
            [CouldNotOpen (outputFileName threadArgs) (threadNum threadArgs)]
            NULL).

(** The thread function returns NULL on both paths and [main] joins with
    a NULL result pointer: the only report of a worker is its line on
    stderr.  The outcome of the specification is read off that line. *)
Inductive WorkerOutcome := Success | Failure (reason : Diagnostic).

Definition outcome (r : WorkerResult) : WorkerOutcome :=
  match diagnostics r with
  | [] => Success
  | reason :: _ => Failure reason
  end.

(** The primes, in the sense of [IsPrimeNumber], among [len] candidates
    from [start] on, in ascending order. *)
Definition is_prime_b (num : Z) : bool :=
  match IsPrimeNumber num with
  | Some r => negb (r =? 0)
  | None => false
  end.

Definition primes_from (start len : Z) : list Z :=
  filter (fun num => is_prime_b num = true) (seqZ start len).

(** All workers of a batch: worker [i] runs on the [i]-th assignment and
    reads the flag through its own sequence [quit i].  The list holds what
    each worker writes through its own stream.  It is the content of the
    files on disk when the assignments name different paths; for workers
    that open the same path the content of that path is outside this
    model. *)
Definition run_workers (fopen_ok : string -> bool) (quit : nat -> nat -> Z)
    (assignments : list ThreadArguments) : list (option WorkerResult) :=
  imap (fun i a => PrimeNumberGenerator fopen_ok (quit i) a) assignments.

(** ** The dispatcher: [main] *)

(** Results of the library calls of [main]; the calls made once per thread
    are indexed by [iter]. *)
Record Env := mkEnv {
  sigaction_ret : Z;
  sysconf_ret : Z;
  calloc_threads_ok : bool;
  calloc_arguments_ok : bool;
  cwd : string;
  attr_init_ret : Z -> Z;
  attr_setstacksize_ret : Z -> Z;
  attr_setaffinity_ret : Z -> Z;
  pthread_create_ret : Z -> Z;
  pthread_create_handle : Z -> Z;
  attr_destroy_ret : Z -> Z;
  pthread_cancel_ret : Z -> Z;
  pthread_join_ret : Z -> Z
}.

(** What [main] does that is visible from outside, in order. *)
Inductive Event :=
| Stderr (d : Diagnostic)
| Created (iter : Z) (args : ThreadArguments)
| Cancelled (iter : Z)
| Joined (iter : Z).

(** How a loop of [main] is left: normally, or by reading [threads[index]]
    outside the array. *)
Inductive Flow (A : Type) :=
| Normal (a : A)
| Fault (index : Z).
Arguments Normal {A} a.
Arguments Fault {A} index.

(** How the process ends: [main] returns or [err] exits with [status], or
    the program leaves defined behaviour at [threads[index]]. *)
Inductive Outcome :=
| Exited (status : Z)
| OutOfBounds (index : Z).

(** [while (--iter >= 0) { result = pthread_cancel(threads[iter]); ... }]
    with [iter] of type [size_t]. *)
Fixpoint cancel_loop (fuel : nat) (env : Env) (threads : list Z)
    (iter : Z) (trace : list Event) : option (list Event * Flow unit) :=
  match fuel with
  | O => None
  | S fuel' =>
      let iter := ulong (iter - 1) in
      if 0 <=? iter then
        match array_get threads iter with
        | None => Some (trace, Fault iter)
        | Some thread =>
            let result := pthread_cancel_ret env iter in
            cancel_loop fuel' env threads iter
              (trace ++ Cancelled iter
                     :: (if result =? 0 then []
                         else [Stderr (CancellationError result)]))
        end
      else Some (trace, Normal ())
  end.

(** The result of the five calls that launch thread [iter], or-ed
    together as [result |= ...] does. *)
Definition launch_result (env : Env) (iter : Z) : Z :=
  Z.lor (Z.lor (Z.lor (Z.lor (attr_init_ret env iter)
                             (attr_setstacksize_ret env iter))
                      (attr_setaffinity_ret env iter))
               (pthread_create_ret env iter))
        (attr_destroy_ret env iter).

(** The bookkeeping arrays of [main]. *)
Record Bookkeeping := mkBookkeeping {
  threads : list Z;
  threadArguments : list ThreadArguments
}.

(** [for (iter = 0; iter < numberOfCpuCores; iter++) { ... }], lines
    91-126, seen from the loop test.  The comparison converts the signed
    count to [size_t].  The flow carries [result] as the loop leaves it. *)
Fixpoint launch_loop (fuel : nat) (env : Env) (numberOfCpuCores iter : Z)
    (bk : Bookkeeping) (result : Z) (trace : list Event)
  : option (Bookkeeping * list Event * Flow Z) :=
  match fuel with
  | O => None
  | S fuel' =>
      if iter <? ulong numberOfCpuCores then
        let args := fill_arguments ULONG_MAX (cwd env) numberOfCpuCores iter in
        let created := pthread_create_ret env iter =? 0 in
        let bk :=
          mkBookkeeping
            (if created
             then array_set (threads bk) iter (pthread_create_handle env iter)
             else threads bk)
            (array_set (threadArguments bk) iter args) in
        let trace := trace ++ (if created then [Created iter args] else []) in
        let result := launch_result env iter in
        if result =? 0 then
          launch_loop fuel' env numberOfCpuCores (ulong (iter + 1)) bk result trace
        else
          match cancel_loop (S (Z.to_nat iter)) env (threads bk) iter
                  (trace ++ [Stderr (CreationResult result)]) with
          | None => None
          | Some (trace, Fault index) => Some (bk, trace, Fault index)
          | Some (trace, Normal _) => Some (bk, trace, Normal EXIT_FAILURE)
          end
      else Some (bk, trace, Normal result)
  end.

(** [for (iter = 0; iter < numberOfCpuCores && threads[iter] != 0; iter++)
    { result = pthread_join(threads[iter], NULL); ... }], lines 130-138. *)
Fixpoint join_loop (fuel : nat) (env : Env) (numberOfCpuCores iter : Z)
    (threads : list Z) (result : Z) (trace : list Event)
  : option (list Event * Flow Z) :=
  match fuel with
  | O => None
  | S fuel' =>
      if iter <? ulong numberOfCpuCores then
        match array_get threads iter with
        | None => Some (trace, Fault iter)
        | Some thread =>
            if thread =? 0 then Some (trace, Normal result)
            else
              let result := pthread_join_ret env iter in
              join_loop fuel' env numberOfCpuCores (ulong (iter + 1)) threads
                result
                (trace ++ Joined iter
                       :: (if result =? 0 then []
                           else [Stderr (JoinError result)]))
        end
      else Some (trace, Normal result)
  end.

Definition zero_arguments : ThreadArguments := mkThreadArguments 0 0 0 0 "".

(** [int main(int argc, char *argv[])]: the events in order and the way
    the process ends.  The store [receivedQuitSignal = 0] of line 51 is
    part of the signal machine below. *)
Definition main (env : Env) : option (list Event * Outcome) :=
  if sigaction_ret env =? -1 then
    Some ([Stderr (Err EXIT_FAILURE "Could not setup SIGQUIT.")],
          Exited EXIT_FAILURE)
  else
    let numberOfCpuCores := sysconf_ret env in
    if EINVAL =? numberOfCpuCores then
      Some ([Stderr (Err EXIT_FAILURE "Can't enumerate number of CPU cores.")],
            Exited EXIT_FAILURE)
    else
      match calloc (ulong numberOfCpuCores) sizeof_pthread_t
                   (calloc_threads_ok env) 0,
            calloc (ulong numberOfCpuCores) sizeof_ThreadArguments
                   (calloc_arguments_ok env) zero_arguments with
      | Some threads0, Some arguments0 =>
          let fuel := S (Z.to_nat (ulong numberOfCpuCores)) in
          match launch_loop fuel env numberOfCpuCores 0
                  (mkBookkeeping threads0 arguments0) EXIT_SUCCESS [] with
          | None => None
          | Some (_, trace, Fault index) => Some (trace, OutOfBounds index)
          | Some (bk, trace, Normal result) =>
              if EXIT_FAILURE =? result then Some (trace, Exited result)
              else
                match join_loop fuel env numberOfCpuCores 0 (threads bk)
                        result trace with
                | None => None
                | Some (trace, Fault index) => Some (trace, OutOfBounds index)
                | Some (trace, Normal result) => Some (trace, Exited result)
                end
          end
      | _, _ =>
          Some ([Stderr (Err EXIT_FAILURE "Memory allocation error.")],
                Exited EXIT_FAILURE)
      end.

(** ** Environments and readings of a trace *)

(** The threads that [pthread_cancel] was called on, in order. *)
Definition cancelled (trace : list Event) : list Z :=
  omap (fun e => match e with Cancelled iter => Some iter | _ => None end)
       trace.

(** The threads that [pthread_join] was called on, in order. *)
Definition joined (trace : list Event) : list Z :=
  omap (fun e => match e with Joined iter => Some iter | _ => None end) trace.

(** A machine with [cores] online cores on which every call succeeds;
    thread handles are nonzero, as the addresses glibc hands out are. *)
Definition all_succeed (cores : Z) : Env :=
  {| sigaction_ret := 0;
     sysconf_ret := cores;
     calloc_threads_ok := true;
     calloc_arguments_ok := true;
     cwd := "/home/user";
     attr_init_ret := fun _ => 0;
     attr_setstacksize_ret := fun _ => 0;
     attr_setaffinity_ret := fun _ => 0;
     pthread_create_ret := fun _ => 0;
     pthread_create_handle := fun iter => 1000 + iter;
     attr_destroy_ret := fun _ => 0;
     pthread_cancel_ret := fun _ => 0;
     pthread_join_ret := fun _ => 0 |}.

(** The same machine, but [pthread_create] returns [code] for thread [k]. *)
Definition spawn_fails_at (cores k code : Z) : Env :=
  {| sigaction_ret := 0;
     sysconf_ret := cores;
     calloc_threads_ok := true;
     calloc_arguments_ok := true;
     cwd := "/home/user";
     attr_init_ret := fun _ => 0;
     attr_setstacksize_ret := fun _ => 0;
     attr_setaffinity_ret := fun _ => 0;
     pthread_create_ret := fun iter => if iter =? k then code else 0;
     pthread_create_handle := fun iter => 1000 + iter;
     attr_destroy_ret := fun _ => 0;
     pthread_cancel_ret := fun _ => 0;
     pthread_join_ret := fun _ => 0 |}.

(** The same machine, but [pthread_join] returns [code] for thread [k]. *)
Definition join_fails_at (cores k code : Z) : Env :=
  {| sigaction_ret := 0;
     sysconf_ret := cores;
     calloc_threads_ok := true;
     calloc_arguments_ok := true;
     cwd := "/home/user";
     attr_init_ret := fun _ => 0;
     attr_setstacksize_ret := fun _ => 0;
     attr_setaffinity_ret := fun _ => 0;
     pthread_create_ret := fun _ => 0;
     pthread_create_handle := fun iter => 1000 + iter;
     attr_destroy_ret := fun _ => 0;
     pthread_cancel_ret := fun _ => 0;
     pthread_join_ret := fun iter => if iter =? k then code else 0 |}.

(** The threads that [pthread_create] started, with the arguments handed
    to them, in order. *)
Definition created (trace : list Event) : list (Z * ThreadArguments) :=
  omap (fun e => match e with
                 | Created iter args => Some (iter, args)
                 | _ => None
                 end) trace.

(** No line feed occurs in the string. *)
Fixpoint no_newline (s : string) : bool :=
  match s with
  | EmptyString => true
  | String c rest => negb (Ascii.eqb c "010"%char) && no_newline rest
  end.

(** A working directory [n] levels deep, of [2 * n] characters. *)
Fixpoint deep_directory (n : nat) : string :=
  match n with
  | O => EmptyString
  | S n' => String "/"%char (String "d"%char (deep_directory n'))
  end.

(** Thread [iter] as [pthread_create] starts it in [main]. *)
Definition started (env : Env) (numberOfCpuCores iter : Z)
  : Z * ThreadArguments :=
  (iter, fill_arguments ULONG_MAX (cwd env) numberOfCpuCores iter).

(** A machine on which [main] gets as far as the launch loop: the handler
    is installed, [sysconf] reports [N >= 1] cores, [N] is not 22, and
    both arrays are allocated. *)
Definition reaches_launch (env : Env) (N : Z) : Prop :=
  sigaction_ret env <> -1
  /\ sysconf_ret env = N
  /\ 1 <= N
  /\ N <> EINVAL
  /\ N * sizeof_ThreadArguments <= ULONG_MAX
  /\ calloc_threads_ok env = true
  /\ calloc_arguments_ok env = true.

(** A machine on which [pthread_create] starts every thread but
    [pthread_attr_destroy] returns [code] for thread [k]. *)
Definition destroy_fails_at (cores k code : Z) : Env :=
  {| sigaction_ret := 0;
     sysconf_ret := cores;
     calloc_threads_ok := true;
     calloc_arguments_ok := true;
     cwd := "/home/user";
     attr_init_ret := fun _ => 0;
     attr_setstacksize_ret := fun _ => 0;
     attr_setaffinity_ret := fun _ => 0;
     pthread_create_ret := fun _ => 0;
     pthread_create_handle := fun iter => 1000 + iter;
     attr_destroy_ret := fun iter => if iter =? k then code else 0;
     pthread_cancel_ret := fun _ => 0;
     pthread_join_ret := fun _ => 0 |}.

(** A machine on which every call succeeds and the handle of thread [z]
    is the zero [pthread_t]; [pthread_join] returns [code] for every
    thread. *)
Definition zero_handle_at (cores z code : Z) : Env :=
  {| sigaction_ret := 0;
     sysconf_ret := cores;
     calloc_threads_ok := true;
     calloc_arguments_ok := true;
     cwd := "/home/user";
     attr_init_ret := fun _ => 0;
     attr_setstacksize_ret := fun _ => 0;
     attr_setaffinity_ret := fun _ => 0;
     pthread_create_ret := fun _ => 0;
     pthread_create_handle := fun iter => if iter =? z then 0 else 1000 + iter;
     attr_destroy_ret := fun _ => 0;
     pthread_cancel_ret := fun _ => 0;
     pthread_join_ret := fun _ => code |}.

(** ** The quit flag as a transition system *)

(** Where [main] stands with respect to the flag: before line 51, between
    line 51 and the [sigaction] of line 56, after a successful [sigaction],
    or after the process has ended. *)
Inductive Phase := AtEntry | FlagCleared | HandlerInstalled | Ended.

Record Process := mkProcess {
  receivedQuitSignal : Z;
  phase : Phase
}.

(** The steps that can touch or read the flag, and the steps that end the
    process.  Every other statement of the program belongs to [Other]. *)
Inductive Step :=
| ClearFlag            (* line 51: receivedQuitSignal = 0 *)
| InstallHandler       (* line 56: sigaction succeeds *)
| InstallFails         (* line 58: err(EXIT_FAILURE, ...) *)
| HandleQuitSignal     (* SIGQUIT arrives, handleQuitSignal runs *)
| DefaultQuit          (* SIGQUIT arrives with no handler: process killed *)
| WorkerReads (thread : Z) (* the loop test of a worker reads the flag *)
| Other                (* a statement that does not name the flag *)
| Exit.                (* main returns, err exits, or the process dies *)

(** A global of static storage duration starts as zero. *)
Definition process_start : Process := mkProcess 0 AtEntry.

(** [void handleQuitSignal(int sig)]. *)
Definition handleQuitSignal (p : Process) : Process :=
  mkProcess 1 (phase p).

(** One step; [None] when the step cannot happen in that phase. *)
Definition step (s : Step) (p : Process) : option Process :=
  match phase p, s with
  | Ended, _ => None
  | AtEntry, ClearFlag => Some (mkProcess 0 FlagCleared)
  | FlagCleared, InstallHandler =>
      Some (mkProcess (receivedQuitSignal p) HandlerInstalled)
  | FlagCleared, InstallFails => Some (mkProcess (receivedQuitSignal p) Ended)
  | HandlerInstalled, HandleQuitSignal => Some (handleQuitSignal p)
  | (AtEntry | FlagCleared), DefaultQuit =>
      Some (mkProcess (receivedQuitSignal p) Ended)
  | HandlerInstalled, WorkerReads _ => Some p
  | HandlerInstalled, Other => Some p
  | _, Exit => Some (mkProcess (receivedQuitSignal p) Ended)
  | _, _ => None
  end.

(** A run: the states visited after each step, or [None] when some step
    cannot happen. *)
Fixpoint run (steps : list Step) (p : Process) : option (list Process) :=
  match steps with
  | [] => Some []
  | s :: rest =>
      match step s p with
      | None => None
      | Some p' =>
          match run rest p' with
          | None => None
          | Some ps => Some (p' :: ps)
          end
      end
  end.


(** On every state the program can reach, the flag is 0 or 1, and it is 1
    only once the handler is installed. *)
Definition flag_sound (p : Process) : Prop :=
  receivedQuitSignal p = 0
  \/ (receivedQuitSignal p = 1
      /\ (phase p = HandlerInstalled \/ phase p = Ended)).

(** * Properties *)

(** ** Machine arithmetic *)

Section Machine_facts.

Lemma ulong_small z : 0 <= z <= ULONG_MAX -> ulong z = z.
Proof. intros H. unfold ulong. apply Z.mod_small. lia. Qed.

Lemma ulong_range z : 0 <= ulong z <= ULONG_MAX.
Proof.
  unfold ulong, ULONG_MAX.
  pose proof (Z.mod_pos_bound z (2 ^ 64 - 1 + 1) ltac:(lia)). lia.
Qed.

Lemma ULONG_MAX_pos : 0 < ULONG_MAX.
Proof. unfold ULONG_MAX. lia. Qed.

Lemma array_get_inside {A} (a : list A) i :
  0 <= i < Z.of_nat (length a) -> array_get a i = a !! Z.to_nat i.
Proof.
  intros H. unfold array_get.
  destruct (Z.leb_spec 0 i); [|lia]. destruct (Z.ltb_spec i (Z.of_nat (length a))); [|lia].
  reflexivity.
Qed.

Lemma array_get_outside {A} (a : list A) i :
  Z.of_nat (length a) <= i -> array_get a i = None.
Proof.
  intros H. unfold array_get.
  destruct (Z.ltb_spec i (Z.of_nat (length a))); [lia|].
  now rewrite andb_false_r.
Qed.

Lemma append_empty_r (s : string) : s +:+ "" = s.
Proof.
  induction s as [|c s IH]; [reflexivity|].
  change (String c (s +:+ "") = String c s). now rewrite IH.
Qed.

Lemma append_assoc (s t u : string) : (s +:+ t) +:+ u = s +:+ (t +:+ u).
Proof.
  induction s as [|c s IH]; [reflexivity|].
  change (String c ((s +:+ t) +:+ u) = String c (s +:+ (t +:+ u))).
  now rewrite IH.
Qed.

End Machine_facts.

(** ** The primality test *)

Section IsPrimeNumber_facts.

(** The loop leaves with 0 exactly when a divisor exists at or above the
    current [denom], and with 1 otherwise; it does not run out of fuel when
    given more than [num - denom] rounds. *)
Lemma IsPrimeNumber_loop_spec fuel num denom :
  2 <= denom -> 0 <= num <= ULONG_MAX ->
  (Z.to_nat (num - denom) < fuel)%nat ->
  (has_divisor_from denom num /\ IsPrimeNumber_loop fuel num denom = Some 0)
  \/ (~ has_divisor_from denom num /\ IsPrimeNumber_loop fuel num denom = Some 1).
Proof.
  revert denom. induction fuel as [|fuel IH]; intros denom Hd Hn Hf; [lia|].
  simpl. destruct (Z.ltb_spec denom num) as [Hlt|Hge].
  - destruct (Z.eqb_spec (num mod denom) 0) as [Hz|Hnz].
    + left. split; [|reflexivity]. exists denom. lia.
    + rewrite ulong_small by lia.
      destruct (IH (denom + 1)) as [[[d [Hr Hm]] ->]|[Hno ->]]; try lia.
      * left. split; [|reflexivity]. exists d. lia.
      * right. split; [|reflexivity]. intros [d [Hr Hm]].
        destruct (Z.eq_dec d denom) as [->|Hne]; [contradiction|].
        apply Hno. exists d. lia.
  - right. split; [|reflexivity]. intros [d [Hr _]]. lia.
Qed.

Lemma IsPrimeNumber_spec num :
  0 <= num <= ULONG_MAX ->
  (has_divisor_from 2 num /\ IsPrimeNumber num = Some 0)
  \/ (~ has_divisor_from 2 num /\ IsPrimeNumber num = Some 1).
Proof. intros Hn. apply IsPrimeNumber_loop_spec; lia. Qed.

(** More fuel does not change a result already obtained. *)
Lemma IsPrimeNumber_loop_more fuel fuel' num denom r :
  (fuel <= fuel')%nat ->
  IsPrimeNumber_loop fuel num denom = Some r ->
  IsPrimeNumber_loop fuel' num denom = Some r.
Proof.
  revert fuel' denom. induction fuel as [|fuel IH]; intros fuel' denom Hle; [discriminate|].
  destruct fuel' as [|fuel']; [lia|]. simpl.
  destruct (denom <? num); [|tauto].
  destruct (num mod denom =? 0); [tauto|].
  apply IH. lia.
Qed.

Example IsPrimeNumber_7 : IsPrimeNumber 7 = Some 1.
Proof. reflexivity. Qed.

Example IsPrimeNumber_9 : IsPrimeNumber 9 = Some 0.
Proof. reflexivity. Qed.

End IsPrimeNumber_facts.

(** C3. For every unsigned long [num], [IsPrimeNumber num] returns (on the
    fuel [main]'s threads give it) 0 exactly when some integer of
    [[2, num)] divides [num] without remainder and 1 exactly when none
    does; for 0 and 1 the range is empty and the answer is 1. *)
Theorem C3_IsPrimeNumber_trial_division (num : Z) :
  0 <= num <= ULONG_MAX ->
  (IsPrimeNumber num = Some 0 \/ IsPrimeNumber num = Some 1)
  /\ (IsPrimeNumber num = Some 0 <-> has_divisor_from 2 num)
  /\ (IsPrimeNumber num = Some 1 <-> ~ has_divisor_from 2 num)
  /\ (forall fuel, (Z.to_nat num < fuel)%nat ->
        IsPrimeNumber_loop fuel num 2 = IsPrimeNumber num)
  /\ IsPrimeNumber 0 = Some 1
  /\ IsPrimeNumber 1 = Some 1.
Proof.
  intros Hn.
  destruct (IsPrimeNumber_spec num Hn) as [[Hd Hr]|[Hd Hr]].
  - repeat split; try reflexivity; try tauto.
    + intros H. rewrite Hr in H. discriminate.
    + intros fuel Hf. rewrite Hr.
      apply (IsPrimeNumber_loop_more (S (Z.to_nat num))); [lia|exact Hr].
  - repeat split; try reflexivity; try tauto.
    + intros H. rewrite Hr in H. discriminate.
    + intros fuel Hf. rewrite Hr.
      apply (IsPrimeNumber_loop_more (S (Z.to_nat num))); [lia|exact Hr].
Qed.

Lemma C3_witness :
  0 <= 9 <= ULONG_MAX /\ (IsPrimeNumber 9 = Some 0 <-> has_divisor_from 2 9).
Proof.
  assert (H : 0 <= 9 <= ULONG_MAX) by (unfold ULONG_MAX; lia).
  split; [exact H|].
  exact (proj1 (proj2 (C3_IsPrimeNumber_trial_division 9 H))).
Defined.

(** ** The slices of the number line *)

Section Partition_facts.

Variables (domain_max count : Z) (cwd : string).
Hypothesis domain_max_ulong : 0 <= domain_max <= ULONG_MAX.
Hypothesis count_ulong : 1 <= count <= ULONG_MAX.

Let q := domain_max / count.

Lemma slice_size_exact : slice_size domain_max count = q.
Proof. unfold slice_size. now rewrite ulong_small by lia. Qed.

Lemma slice_size_bounds : 0 <= q /\ count * q <= domain_max.
Proof.
  subst q. split.
  - apply Z.div_pos; lia.
  - apply Z.mul_div_le. lia.
Qed.

Lemma slice_shortfall :
  count * q = domain_max - domain_max mod count
  /\ 0 <= domain_max - count * q <= count - 1.
Proof.
  subst q. pose proof (Z.div_mod domain_max count ltac:(lia)).
  pose proof (Z.mod_pos_bound domain_max count ltac:(lia)). lia.
Qed.

(** Neither product nor sum leaves [unsigned long]. *)
Lemma slice_no_overflow iter :
  0 <= iter < count ->
  0 <= q * iter /\ q * iter + q <= domain_max.
Proof.
  intros Hi. pose proof slice_size_bounds as [Hq Hc]. nia.
Qed.

Lemma slice_begin_exact iter :
  0 <= iter < count -> slice_begin domain_max count iter = q * iter.
Proof.
  intros Hi. unfold slice_begin. rewrite slice_size_exact.
  pose proof (slice_no_overflow iter Hi). pose proof slice_size_bounds.
  apply ulong_small. lia.
Qed.

Lemma slice_end_exact iter :
  0 <= iter < count -> slice_end domain_max count iter = q * iter + q.
Proof.
  intros Hi. unfold slice_end.
  rewrite slice_begin_exact, slice_size_exact by exact Hi.
  pose proof (slice_no_overflow iter Hi). pose proof slice_size_bounds.
  apply ulong_small. lia.
Qed.

Lemma partition_lookup (i : nat) a :
  partition domain_max cwd count !! i = Some a <->
  a = fill_arguments domain_max cwd count (Z.of_nat i) /\ Z.of_nat i < count.
Proof.
  unfold partition. rewrite list_lookup_fmap. split.
  - intros H. destruct (seqZ 0 count !! i) as [z|] eqn:E; [|discriminate].
    apply lookup_seqZ in E as [-> Hlt]. simpl in H. injection H as <-.
    split; [reflexivity|exact Hlt].
  - intros [-> Hlt]. rewrite lookup_seqZ_lt by exact Hlt. reflexivity.
Qed.

Lemma partition_length :
  length (partition domain_max cwd count) = Z.to_nat count.
Proof. unfold partition. now rewrite length_fmap, length_seqZ. Qed.

Lemma partition_range (i : nat) a :
  partition domain_max cwd count !! i = Some a ->
  beginCalculationsAt a = q * Z.of_nat i
  /\ endCalculationsAt a = q * Z.of_nat i + q.
Proof.
  intros H. apply partition_lookup in H as [-> Hlt]. simpl.
  rewrite slice_begin_exact, slice_end_exact by lia. tauto.
Qed.

(** A number lies in some range exactly when it is below [count * q]. *)
Lemma partition_union num :
  (exists a, a ∈ partition domain_max cwd count /\ in_range a num)
  <-> 0 <= num < count * q.
Proof.
  pose proof slice_size_bounds as [Hq Hc]. split.
  - intros [a [Hin [Hlo Hhi]]].
    apply list_elem_of_lookup in Hin as [i Hi].
    pose proof (proj1 (partition_lookup i a) Hi) as [_ Hlt].
    apply partition_range in Hi as [Hb He]. rewrite Hb in Hlo. rewrite He in Hhi.
    nia.
  - intros Hnum.
    assert (Hqpos : 0 < q) by nia.
    pose proof (Z.div_mod num q ltac:(lia)) as Hdm.
    pose proof (Z.mod_pos_bound num q Hqpos) as Hmod.
    assert (Hi0 : 0 <= num / q) by (apply Z.div_pos; lia).
    assert (Hi1 : num / q < count) by (apply Z.div_lt_upper_bound; lia).
    exists (fill_arguments domain_max cwd count (num / q)). split.
    + apply list_elem_of_lookup. exists (Z.to_nat (num / q)).
      apply partition_lookup. rewrite Z2Nat.id by lia. split; [reflexivity|lia].
    + unfold in_range. simpl.
      rewrite slice_begin_exact, slice_end_exact by lia. lia.
Qed.

Lemma partition_no_overlap (i j : nat) a b num :
  partition domain_max cwd count !! i = Some a ->
  partition domain_max cwd count !! j = Some b ->
  in_range a num -> in_range b num -> i = j.
Proof.
  intros Hi Hj [Ha1 Ha2] [Hb1 Hb2].
  apply partition_range in Hi as [Hib Hie].
  apply partition_range in Hj as [Hjb Hje].
  rewrite Hib in Ha1. rewrite Hie in Ha2. rewrite Hjb in Hb1. rewrite Hje in Hb2.
  pose proof slice_size_bounds as [Hq _].
  destruct (Nat.lt_total i j) as [Hlt|[Heq|Hgt]]; [|exact Heq|]; exfalso; nia.
Qed.

End Partition_facts.

(** C10. For every core count [N >= 1] that fits the count's type and
    every thread index [i < N], the product [(ULONG_MAX / N) * i] and the
    sum [begin + ULONG_MAX / N] stay within [unsigned long], so the stored
    bounds are the exact values: [begin = floor(ULONG_MAX / N) * i],
    [end = (i + 1) * floor(ULONG_MAX / N) <= ULONG_MAX], and every range,
    the last one too, has length [floor(ULONG_MAX / N)]. *)
Theorem C10_bounds_never_overflow (cwd : string) (N i : Z) :
  1 <= N <= ULONG_MAX -> 0 <= i < N ->
  let a := fill_arguments ULONG_MAX cwd N i in
  0 <= (ULONG_MAX / N) * i <= ULONG_MAX
  /\ 0 <= (ULONG_MAX / N) * i + ULONG_MAX / N <= ULONG_MAX
  /\ beginCalculationsAt a = (ULONG_MAX / N) * i
  /\ endCalculationsAt a = (i + 1) * (ULONG_MAX / N)
  /\ endCalculationsAt a <= ULONG_MAX
  /\ endCalculationsAt a - beginCalculationsAt a = ULONG_MAX / N.
Proof.
  intros HN Hi a.
  assert (HD : 0 <= ULONG_MAX <= ULONG_MAX) by (pose proof ULONG_MAX_pos; lia).
  pose proof (slice_no_overflow ULONG_MAX N HD HN i Hi) as [H0 H1].
  pose proof (slice_size_bounds ULONG_MAX N HD HN) as [Hq _].
  pose proof (slice_begin_exact ULONG_MAX N HD HN i Hi) as Hb.
  pose proof (slice_end_exact ULONG_MAX N HD HN i Hi) as He.
  subst a. simpl. rewrite Hb, He. lia.
Qed.

Lemma C10_witness :
  endCalculationsAt (fill_arguments ULONG_MAX "" 4 3) = (3 + 1) * (ULONG_MAX / 4).
Proof.
  assert (HN : 1 <= 4 <= ULONG_MAX) by (unfold ULONG_MAX; lia).
  assert (Hi : 0 <= 3 < 4) by lia.
  exact (proj1 (proj2 (proj2 (proj2 (C10_bounds_never_overflow "" 4 3 HN Hi))))).
Defined.

(** The specified partition property holds as soon as there are no more
    assignments than numbers; every assignment then has the same size. *)
Lemma partition_as_specified_holds (domain_max count : Z) (cwd : string) :
  1 <= count <= domain_max -> domain_max <= ULONG_MAX ->
  partition_as_specified domain_max cwd count
  /\ (forall a, a ∈ partition domain_max cwd count ->
        endCalculationsAt a - beginCalculationsAt a = domain_max / count).
Proof.
  intros Hc Hd.
  assert (HD : 0 <= domain_max <= ULONG_MAX) by lia.
  assert (HC : 1 <= count <= ULONG_MAX) by lia.
  pose proof (slice_size_bounds domain_max count HD HC) as [Hq0 Hq1].
  assert (Hq : 0 < domain_max / count).
  { apply Z.div_str_pos. lia. }
  assert (Hlast : forall a, last (partition domain_max cwd count) = Some a ->
            endCalculationsAt a = count * (domain_max / count)).
  { intros a Ha. rewrite last_lookup, partition_length in Ha.
    apply (partition_range _ _ cwd HD HC) in Ha as [_ He]. rewrite He.
    replace (Z.of_nat (Nat.pred (Z.to_nat count))) with (count - 1) by lia.
    lia. }
  unfold partition_as_specified. cbv zeta.
  split; [split; [|split; [|split; [|split]]]|].
  - apply partition_length.
  - intros i a Ha.
    apply (partition_range _ _ cwd HD HC) in Ha as [Hb He]. lia.
  - intros i a Ha _.
    apply (partition_range _ _ cwd HD HC) in Ha as [Hb He]. lia.
  - intros i j a b Hij Ha Hb.
    apply (partition_range _ _ cwd HD HC) in Ha as [_ Hae].
    apply (partition_range _ _ cwd HD HC) in Hb as [Hbb _]. nia.
  - intros a Ha. rewrite (Hlast a Ha).
    pose proof (slice_shortfall domain_max count HC). lia.
  - intros a Ha. apply list_elem_of_lookup in Ha as [i Hi].
    apply (partition_range _ _ cwd HD HC) in Hi as [Hb He]. lia.
Qed.

(** In [main] the domain is [ULONG_MAX] and the count a positive
    [ssize_t]. *)
Lemma partition_in_main (count : Z) (cwd : string) :
  1 <= count <= SSIZE_MAX -> partition_as_specified ULONG_MAX cwd count.
Proof.
  intros Hc. apply partition_as_specified_holds; unfold SSIZE_MAX, ULONG_MAX in *; lia.
Qed.

(** With any unsigned long in place of [ULONG_MAX]: the count, the
    starts, the common size, the order and the end of the last assignment
    are as on [ULONG_MAX], and a range is non-empty exactly when there are
    no more assignments than numbers. *)
Lemma partition_any_domain (domain_max count : Z) (cwd : string) :
  0 <= domain_max <= ULONG_MAX -> 1 <= count <= ULONG_MAX ->
  let p := partition domain_max cwd count in
  let q := domain_max / count in
  length p = Z.to_nat count
  /\ (forall (i : nat) a, p !! i = Some a ->
        beginCalculationsAt a = Z.of_nat i * q
        /\ endCalculationsAt a - beginCalculationsAt a = q
        /\ (beginCalculationsAt a < endCalculationsAt a
            <-> count <= domain_max))
  /\ (forall (i j : nat) a b, (i < j)%nat ->
        p !! i = Some a -> p !! j = Some b ->
        endCalculationsAt a <= beginCalculationsAt b)
  /\ (forall a, last p = Some a ->
        endCalculationsAt a = count * q
        /\ 0 <= domain_max - endCalculationsAt a <= count - 1).
Proof.
  intros HD HC p q.
  pose proof (slice_size_bounds domain_max count HD HC) as [Hq0 Hq1].
  fold q in Hq0, Hq1.
  assert (Hq : 0 < q <-> count <= domain_max).
  { subst q. split.
    - intros Hpos. destruct (Z.le_gt_cases count domain_max) as [|Hgt]; [assumption|].
      rewrite Z.div_small in Hpos by lia. lia.
    - intros Hle. apply Z.div_str_pos. lia. }
  split; [apply partition_length|]. split; [|split].
  - intros i a Ha.
    apply (partition_range _ _ cwd HD HC) in Ha as [Hb He]. fold q in Hb, He.
    split; [lia|]. split; [lia|]. rewrite <- Hq. lia.
  - intros i j a b Hij Ha Hb.
    apply (partition_range _ _ cwd HD HC) in Ha as [_ Hae].
    apply (partition_range _ _ cwd HD HC) in Hb as [Hbb _].
    fold q in Hae, Hbb. nia.
  - intros a Ha. subst p. rewrite last_lookup, partition_length in Ha.
    apply (partition_range _ _ cwd HD HC) in Ha as [_ He]. fold q in He.
    replace (Z.of_nat (Nat.pred (Z.to_nat count))) with (count - 1) in He by lia.
    pose proof (slice_shortfall domain_max count HC) as Hs. fold q in Hs. lia.
Qed.

(** C1.  The domain of [main] is the macro [ULONG_MAX] and its count a
    positive [ssize_t].  For every such count the partition has exactly
    [count] assignments, pairwise disjoint and ordered by index, each with
    [start < end]; assignment [i] starts at [i * floor(ULONG_MAX / count)]
    and every assignment has size [floor(ULONG_MAX / count)]; the end of
    the last is the unclamped [count * floor(ULONG_MAX / count)], short of
    [ULONG_MAX] by at most [count - 1].  With any other unsigned long
    [domain_max] in place of the macro, the same holds; the one clause
    that depends on the domain is [start < end], which holds exactly when
    [count <= domain_max]. *)
Theorem C1_partition_of_the_number_line (count : Z) (cwd : string) :
  1 <= count <= SSIZE_MAX ->
  partition_as_specified ULONG_MAX cwd count
  /\ (forall a, a ∈ partition ULONG_MAX cwd count ->
        endCalculationsAt a - beginCalculationsAt a = ULONG_MAX / count)
  /\ (forall domain_max, 0 <= domain_max <= ULONG_MAX ->
        let p := partition domain_max cwd count in
        let q := domain_max / count in
        length p = Z.to_nat count
        /\ (forall (i : nat) a, p !! i = Some a ->
              beginCalculationsAt a = Z.of_nat i * q
              /\ endCalculationsAt a - beginCalculationsAt a = q
              /\ (beginCalculationsAt a < endCalculationsAt a
                  <-> count <= domain_max))
        /\ (forall (i j : nat) a b, (i < j)%nat ->
              p !! i = Some a -> p !! j = Some b ->
              endCalculationsAt a <= beginCalculationsAt b)
        /\ (forall a, last p = Some a ->
              endCalculationsAt a = count * q
              /\ 0 <= domain_max - endCalculationsAt a <= count - 1)).
Proof.
  intros Hc.
  assert (Hfit : 1 <= count <= ULONG_MAX)
    by (unfold SSIZE_MAX, ULONG_MAX in *; lia).
  destruct (partition_as_specified_holds ULONG_MAX count cwd Hfit ltac:(lia))
    as [Hspec Hsize].
  split; [exact Hspec|]. split; [exact Hsize|].
  intros domain_max HD. apply partition_any_domain; assumption.
Qed.

Lemma C1_witness :
  partition_as_specified ULONG_MAX "" 2.
Proof.
  assert (Hc : 1 <= 2 <= SSIZE_MAX) by (unfold SSIZE_MAX; lia).
  exact (proj1 (C1_partition_of_the_number_line 2 "" Hc)).
Defined.

(** A domain smaller than the count is not one [main] can have; there the
    quotient is 0 and every range is the empty [[0, 0)]. *)
Example partition_count_above_domain :
  (fun a => (beginCalculationsAt a, endCalculationsAt a))
    <$> partition 3 "" 5
  = [(0, 0); (0, 0); (0, 0); (0, 0); (0, 0)].
Proof. vm_compute. reflexivity. Qed.

(** The shortfall happens on the program's own domain: with two cores the
    last range ends at [ULONG_MAX - 1]. *)
Lemma partition_two_cores_short :
  endCalculationsAt <$> last (partition ULONG_MAX "" 2) = Some (ULONG_MAX - 1).
Proof. vm_compute. reflexivity. Qed.

(** C2, as amended.  For every count from 1 on, the ranges of the
    assignments tile [[0, count * floor(domain_max / count))] with no gap
    and no overlap; the [domain_max mod count] numbers from there up to
    [domain_max] are in no range, so that the ranges partition
    [[0, domain_max)] exactly when [count] divides [domain_max]. *)
Theorem C2_ranges_tile_multiple_of_count (domain_max count : Z)
    (cwd : string) :
  0 <= domain_max <= ULONG_MAX -> 1 <= count <= ULONG_MAX ->
  let p := partition domain_max cwd count in
  (forall num, (exists a, a ∈ p /\ in_range a num)
               <-> 0 <= num < count * (domain_max / count))
  /\ (forall (i j : nat) a b num,
        p !! i = Some a -> p !! j = Some b ->
        in_range a num -> in_range b num -> i = j)
  /\ (forall (i : nat) a b,
        p !! i = Some a -> p !! S i = Some b ->
        endCalculationsAt a = beginCalculationsAt b)
  /\ count * (domain_max / count) = domain_max - domain_max mod count
  /\ (covers_exactly domain_max cwd count <-> domain_max mod count = 0).
Proof.
  intros HD HC p.
  pose proof (slice_shortfall domain_max count HC) as [Hs Hs'].
  assert (Hu := partition_union domain_max count cwd HD HC).
  assert (Hn := partition_no_overlap domain_max count cwd HD HC).
  split; [exact Hu|]. split; [exact Hn|]. split; [|split; [exact Hs|]].
  - intros i a b Ha Hb.
    apply (partition_range _ _ cwd HD HC) in Ha as [_ Hae].
    apply (partition_range _ _ cwd HD HC) in Hb as [Hbb _]. lia.
  - unfold covers_exactly. cbv zeta. split.
    + intros [Hcov _].
      destruct (Z.eq_dec (domain_max mod count) 0) as [|Hne]; [assumption|exfalso].
      pose proof (Z.mod_pos_bound domain_max count ltac:(lia)).
      assert (Hnz : domain_max <> 0).
      { intros E. apply Hne. rewrite E. apply Z.mod_0_l. lia. }
      assert (Hin : 0 <= domain_max - 1 < domain_max) by lia.
      apply Hcov, Hu in Hin. lia.
    + intros Hz. split; [|exact Hn].
      intros num. rewrite Hu. rewrite Hs, Hz. lia.
Qed.

Lemma C2_witness :
  covers_exactly 15 "" 3 <-> 15 mod 3 = 0.
Proof.
  assert (HD : 0 <= 15 <= ULONG_MAX) by (unfold ULONG_MAX; lia).
  assert (HC : 1 <= 3 <= ULONG_MAX) by (unfold ULONG_MAX; lia).
  exact (proj2 (proj2 (proj2 (proj2
           (C2_ranges_tile_multiple_of_count 15 3 "" HD HC))))).
Defined.

(** On the program's own domain and two cores, [ULONG_MAX - 1] lies in
    [[0, ULONG_MAX)] and in neither range. *)
Lemma C2_counterexample : ~ covers_exactly ULONG_MAX "" 2.
Proof.
  intros [Hcov _].
  destruct (proj1 (Hcov (ULONG_MAX - 1))) as [a [Hin [Hlo Hhi]]].
  { unfold ULONG_MAX. lia. }
  apply list_elem_of_lookup in Hin as [i Hi].
  destruct i as [|[|i]].
  - injection Hi as <-. vm_compute in Hhi. discriminate.
  - injection Hi as <-. vm_compute in Hhi. discriminate.
  - vm_compute in Hi. discriminate.
Qed.

(** ** The worker thread *)

Section Worker_facts.

Lemma is_prime_b_true num :
  0 <= num <= ULONG_MAX -> (is_prime_b num = true <-> IsPrimeNumber num = Some 1).
Proof.
  intros Hn. unfold is_prime_b.
  destruct (IsPrimeNumber_spec num Hn) as [[_ ->]|[_ ->]]; simpl; split;
    congruence.
Qed.

Lemma primes_from_nil start len : len <= 0 -> primes_from start len = [].
Proof. intros H. unfold primes_from. now rewrite seqZ_nil. Qed.

Lemma primes_from_step start len :
  0 < len ->
  primes_from start len =
    if is_prime_b start then start :: primes_from (start + 1) (len - 1)
    else primes_from (start + 1) (len - 1).
Proof.
  intros H. unfold primes_from. rewrite seqZ_cons by exact H.
  rewrite filter_cons. rewrite <- Z.add_1_r, <- Z.sub_1_r.
  destruct (is_prime_b start); destruct (decide _); congruence.
Qed.

Lemma elem_of_primes_from start len num :
  num ∈ primes_from start len <->
  start <= num < start + len /\ is_prime_b num = true.
Proof.
  unfold primes_from. rewrite list_elem_of_filter, elem_of_seqZ. tauto.
Qed.

Lemma primes_from_sorted start len : StronglySorted Z.lt (primes_from start len).
Proof.
  destruct (Z.le_gt_cases len 0) as [Hle|Hgt].
  { rewrite primes_from_nil by exact Hle. constructor. }
  rewrite <- (Z2Nat.id len) by lia. clear Hgt.
  generalize (Z.to_nat len) as n. clear len. intros n. revert start.
  induction n as [|n IH]; intros start.
  - rewrite primes_from_nil by lia. constructor.
  - rewrite primes_from_step by lia.
    replace (Z.of_nat (S n) - 1) with (Z.of_nat n) by lia.
    destruct (is_prime_b start); [|apply IH].
    constructor; [apply IH|].
    apply Forall_forall. intros x Hx.
    apply elem_of_primes_from in Hx. lia.
Qed.

Lemma lines_cons num nums : lines (num :: nums) = line num +:+ lines nums.
Proof. reflexivity. Qed.

(** The loop with [k] more reads of a clear flag ahead of it: the flag is
    clear at the next [k] reads and, unless the range ends first, set at
    the read after them.  The loop then leaves after [min k (endAt - num)]
    candidates, having appended the primes among them, and does not run
    out of fuel. *)
Lemma PrimeNumberGenerator_loop_spec fuel quit reads endAt num out k :
  0 <= num -> endAt <= ULONG_MAX -> 0 <= k ->
  (forall j : nat, Z.of_nat j < k -> quit (reads + j)%nat = 0) ->
  (k < endAt - num -> quit (reads + Z.to_nat k)%nat <> 0) ->
  (Z.to_nat (Z.min k (endAt - num)) < fuel)%nat ->
  PrimeNumberGenerator_loop fuel quit reads endAt num out
  = Some (out +:+ lines (primes_from num (Z.min k (endAt - num)))).
Proof.
  revert reads num out k.
  induction fuel as [|fuel IH]; intros reads num out k Hn He Hk Hclear Hset Hf;
    [lia|].
  simpl. destruct (Z.ltb_spec num endAt) as [Hlt|Hge]; simpl.
  - destruct (Z.eq_dec k 0) as [->|Hk0].
    + specialize (Hset ltac:(lia)). simpl in Hset. rewrite Nat.add_0_r in Hset.
      destruct (Z.eqb_spec (quit reads) 0) as [|_]; [contradiction|].
      rewrite primes_from_nil by lia. now rewrite append_empty_r.
    + pose proof (Hclear 0%nat ltac:(lia)) as H0. rewrite Nat.add_0_r in H0.
      rewrite H0. simpl.
      rewrite ulong_small by lia.
      rewrite (primes_from_step num (Z.min k (endAt - num))) by lia.
      replace (Z.min k (endAt - num) - 1)
        with (Z.min (k - 1) (endAt - (num + 1))) by lia.
      assert (Hrec : forall out',
                 PrimeNumberGenerator_loop fuel quit (S reads) endAt (num + 1) out'
                 = Some (out' +:+ lines (primes_from (num + 1)
                                           (Z.min (k - 1) (endAt - (num + 1)))))).
      { intros out'. apply IH; try lia.
        - intros j Hj. replace (S reads + j)%nat with (reads + S j)%nat by lia.
          apply Hclear. lia.
        - intros Hs. replace (S reads + Z.to_nat (k - 1))%nat
            with (reads + Z.to_nat k)%nat by lia.
          apply Hset. lia. }
      unfold is_prime_b.
      destruct (IsPrimeNumber_spec num ltac:(lia)) as [[_ ->]|[_ ->]]; simpl.
      * apply Hrec.
      * rewrite Hrec. now rewrite append_assoc.
  - rewrite primes_from_nil by lia. now rewrite append_empty_r.
Qed.

(** A thread whose file opens and whose reads of the flag are as above. *)
Lemma PrimeNumberGenerator_spec fopen_ok quit a k :
  fopen_ok (outputFileName a) = true ->
  0 <= beginCalculationsAt a -> endCalculationsAt a <= ULONG_MAX ->
  0 <= k ->
  (forall j : nat, Z.of_nat j < k -> quit j = 0) ->
  (k < endCalculationsAt a - beginCalculationsAt a -> quit (Z.to_nat k) <> 0) ->
  PrimeNumberGenerator fopen_ok quit a
  = Some (mkWorkerResult
            (Some (lines (primes_from (beginCalculationsAt a)
                            (Z.min k (endCalculationsAt a
                                      - beginCalculationsAt a)))))
            [] NULL).
Proof.
  intros Hopen Hb He Hk Hclear Hset. unfold PrimeNumberGenerator.
  rewrite Hopen.
  rewrite (PrimeNumberGenerator_loop_spec _ quit 0%nat _ _ "" k); try assumption.
  - reflexivity.
  - lia.
Qed.

(** A thread whose file opens and that never reads the flag set. *)
Lemma PrimeNumberGenerator_never_quit fopen_ok quit a :
  fopen_ok (outputFileName a) = true ->
  (forall k, quit k = 0) ->
  0 <= beginCalculationsAt a -> endCalculationsAt a <= ULONG_MAX ->
  PrimeNumberGenerator fopen_ok quit a
  = Some (mkWorkerResult
            (Some (lines (primes_from (beginCalculationsAt a)
                            (endCalculationsAt a - beginCalculationsAt a))))
            [] NULL).
Proof.
  intros Hopen Hquit Hb He.
  rewrite (PrimeNumberGenerator_spec fopen_ok quit a
             (Z.max 0 (endCalculationsAt a - beginCalculationsAt a)));
    try assumption.
  - replace (Z.min (Z.max 0 (endCalculationsAt a - beginCalculationsAt a))
                   (endCalculationsAt a - beginCalculationsAt a))
      with (endCalculationsAt a - beginCalculationsAt a) by lia.
    reflexivity.
  - lia.
  - intros j _. apply Hquit.
  - intros Hlt. exfalso. lia.
Qed.

End Worker_facts.

(** C4. A thread whose output file opens and that never reads the flag
    set writes exactly the numbers of [[beginCalculationsAt,
    endCalculationsAt)] on which [IsPrimeNumber] answers 1, one decimal
    number per line, in strictly ascending order, prints nothing on stderr
    and returns; for the range [[10, 20)] the file holds 11, 13, 17, 19 in
    that order. *)
Theorem C4_worker_writes_primes_ascending
    (fopen_ok : string -> bool) (quit : nat -> Z) (a : ThreadArguments) :
  fopen_ok (outputFileName a) = true ->
  (forall k, quit k = 0) ->
  0 <= beginCalculationsAt a -> endCalculationsAt a <= ULONG_MAX ->
  let written := primes_from (beginCalculationsAt a)
                   (endCalculationsAt a - beginCalculationsAt a) in
  PrimeNumberGenerator fopen_ok quit a
    = Some (mkWorkerResult (Some (lines written)) [] NULL)
  /\ outcome (mkWorkerResult (Some (lines written)) [] NULL) = Success
  /\ (forall num, num ∈ written <->
                  in_range a num /\ IsPrimeNumber num = Some 1)
  /\ StronglySorted Z.lt written
  /\ (beginCalculationsAt a = 10 -> endCalculationsAt a = 20 ->
      written = [11; 13; 17; 19]
      /\ lines written
         = "11" +:+ newline +:+ "13" +:+ newline
           +:+ "17" +:+ newline +:+ "19" +:+ newline).
Proof.
  intros Hopen Hquit Hb He written.
  split; [|split; [reflexivity|split; [|split]]].
  - apply PrimeNumberGenerator_never_quit; assumption.
  - intros num. subst written. rewrite elem_of_primes_from. unfold in_range.
    split.
    + intros [Hr Hp]. split; [lia|]. apply is_prime_b_true; [lia|exact Hp].
    + intros [Hr Hp]. split; [lia|]. apply is_prime_b_true; [lia|exact Hp].
  - apply primes_from_sorted.
  - intros B E. subst written. rewrite B, E. split; vm_compute; reflexivity.
Qed.

Lemma C4_witness :
  PrimeNumberGenerator (fun _ => true) (fun _ => 0)
    (mkThreadArguments 1 1 10 20 "/tmp/PRIMES_THREAD_0.TXT")
  = Some (mkWorkerResult (Some (lines (primes_from 10 (20 - 10)))) [] NULL).
Proof.
  refine (proj1 (C4_worker_writes_primes_ascending (fun _ => true) (fun _ => 0)
                   (mkThreadArguments 1 1 10 20 "/tmp/PRIMES_THREAD_0.TXT")
                   eq_refl (fun _ => eq_refl) _ _)).
  - simpl. lia.
  - simpl. unfold ULONG_MAX. lia.
Defined.

(** C5. The loop test reads the flag before each candidate.  If the flag
    is clear at the first [k] reads and set at the next one, the thread
    has written only primes among its first [k] candidates, writes nothing
    after that read, prints nothing on stderr and returns (the outcome is
    success); with the flag set at the first read the file is opened and
    left empty. *)
Theorem C5_worker_stops_at_first_set_read
    (fopen_ok : string -> bool) (quit : nat -> Z) (a : ThreadArguments)
    (k : nat) :
  fopen_ok (outputFileName a) = true ->
  0 <= beginCalculationsAt a -> endCalculationsAt a <= ULONG_MAX ->
  (forall j, (j < k)%nat -> quit j = 0) -> quit k <> 0 ->
  let written := primes_from (beginCalculationsAt a)
                   (Z.min (Z.of_nat k)
                      (endCalculationsAt a - beginCalculationsAt a)) in
  PrimeNumberGenerator fopen_ok quit a
    = Some (mkWorkerResult (Some (lines written)) [] NULL)
  /\ outcome (mkWorkerResult (Some (lines written)) [] NULL) = Success
  /\ (forall num, num ∈ written <->
        in_range a num /\ num < beginCalculationsAt a + Z.of_nat k
        /\ IsPrimeNumber num = Some 1)
  /\ (k = 0%nat ->
      PrimeNumberGenerator fopen_ok quit a
        = Some (mkWorkerResult (Some "") [] NULL)).
Proof.
  intros Hopen Hb He Hclear Hset written.
  assert (Hrun : PrimeNumberGenerator fopen_ok quit a
                 = Some (mkWorkerResult (Some (lines written)) [] NULL)).
  { apply (PrimeNumberGenerator_spec fopen_ok quit a (Z.of_nat k));
      try assumption; try lia.
    - intros j Hj. apply Hclear. lia.
    - intros _. now rewrite Nat2Z.id. }
  split; [exact Hrun|]. split; [reflexivity|]. split.
  - intros num. subst written. rewrite elem_of_primes_from. unfold in_range.
    split.
    + intros [Hr Hp]. repeat split; try lia. apply is_prime_b_true; [lia|exact Hp].
    + intros [Hr [Hlt Hp]]. split; [lia|]. apply is_prime_b_true; [lia|exact Hp].
  - intros ->. rewrite Hrun. subst written.
    rewrite primes_from_nil by lia. reflexivity.
Qed.

Lemma C5_witness :
  PrimeNumberGenerator (fun _ => true) (fun _ => 1)
    (mkThreadArguments 1 1 10 20 "/tmp/PRIMES_THREAD_0.TXT")
  = Some (mkWorkerResult (Some "") [] NULL).
Proof.
  refine (proj2 (proj2 (proj2
            (C5_worker_stops_at_first_set_read (fun _ => true) (fun _ => 1)
               (mkThreadArguments 1 1 10 20 "/tmp/PRIMES_THREAD_0.TXT") 0%nat
               eq_refl _ _ _ _))) eq_refl).
  - simpl. lia.
  - simpl. unfold ULONG_MAX. lia.
  - intros j Hj. lia.
  - discriminate.
Defined.

(** C8. A thread whose [fopen] fails writes no file, does not enter its
    loop, prints its one line on stderr and returns at once.  The other
    threads of the batch are untouched by that: what each of them produces
    depends on its own arguments, its own [fopen] and its own reads of the
    flag only, and one whose file opens and that never reads the flag set
    writes the primes of its whole range. *)
Theorem C8_open_failure_is_local
    (fopen_ok : string -> bool) (quit : nat -> nat -> Z)
    (assignments : list ThreadArguments) (i : nat) (a : ThreadArguments) :
  assignments !! i = Some a ->
  fopen_ok (outputFileName a) = false ->
  let failed :=
    mkWorkerResult None [CouldNotOpen (outputFileName a) (threadNum a)] NULL in
  run_workers fopen_ok quit assignments !! i = Some (Some failed)
  /\ file failed = None
  /\ outcome failed
     = Failure (CouldNotOpen (outputFileName a) (threadNum a))
  /\ (forall (j : nat) b,
        j <> i -> assignments !! j = Some b ->
        fopen_ok (outputFileName b) = true ->
        (forall k, quit j k = 0) ->
        0 <= beginCalculationsAt b -> endCalculationsAt b <= ULONG_MAX ->
        run_workers fopen_ok quit assignments !! j
        = Some (Some (mkWorkerResult
                        (Some (lines (primes_from (beginCalculationsAt b)
                                        (endCalculationsAt b
                                         - beginCalculationsAt b))))
                        [] NULL)))
  /\ (forall (fopen_ok' : string -> bool) (j : nat) b,
        j <> i -> assignments !! j = Some b ->
        fopen_ok' (outputFileName b) = fopen_ok (outputFileName b) ->
        run_workers fopen_ok' quit assignments !! j
        = run_workers fopen_ok quit assignments !! j).
Proof.
  intros Hi Hfail failed.
  split; [|split; [reflexivity|split; [reflexivity|split]]].
  - unfold run_workers. rewrite list_lookup_imap, Hi. simpl.
    unfold PrimeNumberGenerator. now rewrite Hfail.
  - intros j b _ Hj Hopen Hquit Hb He.
    unfold run_workers. rewrite list_lookup_imap, Hj. simpl. f_equal.
    apply PrimeNumberGenerator_never_quit; assumption.
  - intros fopen_ok' j b _ Hj Hsame.
    unfold run_workers. rewrite !list_lookup_imap, Hj. simpl. f_equal.
    unfold PrimeNumberGenerator. now rewrite Hsame.
Qed.

Lemma C8_witness :
  run_workers (fun name => negb (String.eqb name "/w/PRIMES_THREAD_0.TXT"))
    (fun _ _ => 0) (partition 40 "/w" 2) !! 0%nat
  = Some (Some (mkWorkerResult None
                  [CouldNotOpen "/w/PRIMES_THREAD_0.TXT" 1] NULL)).
Proof.
  exact (proj1 (C8_open_failure_is_local
                  (fun name => negb (String.eqb name "/w/PRIMES_THREAD_0.TXT"))
                  (fun _ _ => 0) (partition 40 "/w" 2) 0%nat
                  (fill_arguments 40 "/w" 2 0) eq_refl eq_refl)).
Defined.

(** The sibling of the thread above, on the second half of [[0, 40)]. *)
Example sibling_completes :
  run_workers (fun name => negb (String.eqb name "/w/PRIMES_THREAD_0.TXT"))
    (fun _ _ => 0) (partition 40 "/w" 2) !! 1%nat
  = Some (Some (mkWorkerResult (Some (lines [23; 29; 31; 37])) [] NULL)).
Proof. vm_compute. reflexivity. Qed.

(** ** The quit flag *)

Section Flag_facts.

Lemma flag_sound_start : flag_sound process_start.
Proof. left. reflexivity. Qed.

Lemma step_sound s p p' : step s p = Some p' -> flag_sound p -> flag_sound p'.
Proof.
  destruct p as [flag ph]. unfold step, flag_sound, handleQuitSignal. simpl.
  intros H Hs.
  destruct ph, s; try discriminate H; injection H as <-; simpl;
    intuition congruence.
Qed.

(** A step never clears a set flag. *)
Lemma step_keeps_set s p p' :
  step s p = Some p' -> flag_sound p ->
  receivedQuitSignal p = 1 -> receivedQuitSignal p' = 1.
Proof.
  destruct p as [flag ph]. unfold step, flag_sound, handleQuitSignal. simpl.
  intros H Hs Hone.
  destruct ph, s; try discriminate H; injection H as <-; simpl;
    intuition congruence.
Qed.

(** Only the handler changes the value of the flag, and only from 0 to 1. *)
Lemma step_changes_flag s p p' :
  step s p = Some p' -> flag_sound p ->
  receivedQuitSignal p' <> receivedQuitSignal p ->
  s = HandleQuitSignal /\ receivedQuitSignal p = 0 /\ receivedQuitSignal p' = 1.
Proof.
  destruct p as [flag ph]. unfold step, flag_sound, handleQuitSignal. simpl.
  intros H Hs Hne.
  destruct ph, s; try discriminate H; injection H as <-; simpl in *;
    intuition congruence.
Qed.

Lemma run_length steps p ps : run steps p = Some ps -> length ps = length steps.
Proof.
  revert p ps. induction steps as [|s steps IH]; intros p ps H; simpl in H.
  - injection H as <-. reflexivity.
  - destruct (step s p) as [p'|]; [|discriminate].
    destruct (run steps p') as [ps'|] eqn:E; [|discriminate].
    injection H as <-. simpl. f_equal. eapply IH, E.
Qed.

(** Consecutive states of a run are related by the step between them. *)
Lemma run_step steps p ps (i : nat) s q q' :
  run steps p = Some ps ->
  steps !! i = Some s -> (p :: ps) !! i = Some q -> ps !! i = Some q' ->
  step s q = Some q'.
Proof.
  revert p ps i. induction steps as [|s0 steps IH]; intros p ps i H Hs Hq Hq';
    [discriminate|].
  simpl in H. destruct (step s0 p) as [p'|] eqn:E0; [|discriminate].
  destruct (run steps p') as [ps'|] eqn:E; [|discriminate].
  injection H as <-. destruct i as [|i]; simpl in *.
  - congruence.
  - eapply IH; eassumption.
Qed.

Lemma run_sound steps p ps (i : nat) q :
  run steps p = Some ps -> flag_sound p ->
  (p :: ps) !! i = Some q -> flag_sound q.
Proof.
  revert p ps i. induction steps as [|s steps IH]; intros p ps i H Hp Hq.
  - simpl in H. injection H as <-. destruct i; simpl in Hq; [|discriminate].
    congruence.
  - simpl in H. destruct (step s p) as [p'|] eqn:E0; [|discriminate].
    destruct (run steps p') as [ps'|] eqn:E; [|discriminate].
    injection H as <-. destruct i as [|i]; simpl in Hq.
    + congruence.
    + eapply IH; [exact E|eapply step_sound; eassumption|exact Hq].
Qed.

Lemma run_keeps_set steps p ps (i j : nat) q q' :
  run steps p = Some ps -> flag_sound p -> (i <= j)%nat ->
  (p :: ps) !! i = Some q -> (p :: ps) !! j = Some q' ->
  receivedQuitSignal q = 1 -> receivedQuitSignal q' = 1.
Proof.
  intros Hrun Hp Hij Hq. revert q'.
  induction Hij as [|j Hij IH]; intros q' Hq' Hone.
  - congruence.
  - assert (Hlt : (j < length (p :: ps))%nat).
    { apply lookup_lt_Some in Hq'. lia. }
    destruct (lookup_lt_is_Some_2 _ _ Hlt) as [r Hr].
    specialize (IH r Hr Hone).
    assert (Hslt : (j < length steps)%nat).
    { apply lookup_lt_Some in Hq'. simpl in Hq'.
      rewrite (run_length _ _ _ Hrun) in Hq'. lia. }
    destruct (lookup_lt_is_Some_2 _ _ Hslt) as [s Hs].
    eapply step_keeps_set; [|eapply run_sound; eassumption|exact IH].
    eapply run_step; eassumption.
Qed.


End Flag_facts.

(** C9. The flag is one global of the process.  It is 0 when the process
    starts; along every run it holds 0 or 1; once it is 1 no later state
    has it at 0; and a step that changes its value is a run of the quit
    handler taking it from 0 to 1, so that at most one step of a run
    changes it.  (The store of line 51 writes the 0 the flag already
    holds: the handler is installed after it.) *)
Theorem C9_flag_set_once (steps : list Step) (ps : list Process) :
  run steps process_start = Some ps ->
  receivedQuitSignal process_start = 0
  /\ (forall (i : nat) p, (process_start :: ps) !! i = Some p ->
        receivedQuitSignal p = 0 \/ receivedQuitSignal p = 1)
  /\ (forall (i j : nat) p p', (i <= j)%nat ->
        (process_start :: ps) !! i = Some p ->
        (process_start :: ps) !! j = Some p' ->
        receivedQuitSignal p = 1 -> receivedQuitSignal p' = 1)
  /\ (forall (i : nat) s p p',
        steps !! i = Some s ->
        (process_start :: ps) !! i = Some p -> ps !! i = Some p' ->
        receivedQuitSignal p' <> receivedQuitSignal p ->
        s = HandleQuitSignal
        /\ receivedQuitSignal p = 0 /\ receivedQuitSignal p' = 1)
  /\ (forall (i j : nat) p p' q q',
        (process_start :: ps) !! i = Some p -> ps !! i = Some p' ->
        (process_start :: ps) !! j = Some q -> ps !! j = Some q' ->
        receivedQuitSignal p' <> receivedQuitSignal p ->
        receivedQuitSignal q' <> receivedQuitSignal q ->
        i = j).
Proof.
  intros Hrun.
  assert (Hchange : forall (i : nat) s p p',
            steps !! i = Some s ->
            (process_start :: ps) !! i = Some p -> ps !! i = Some p' ->
            receivedQuitSignal p' <> receivedQuitSignal p ->
            s = HandleQuitSignal
            /\ receivedQuitSignal p = 0 /\ receivedQuitSignal p' = 1).
  { intros i s p p' Hs Hp Hp' Hne.
    eapply step_changes_flag; [| |exact Hne].
    - eapply run_step; eassumption.
    - eapply run_sound; [exact Hrun|exact flag_sound_start|exact Hp]. }
  assert (Hchange' : forall (i : nat) p p',
            (process_start :: ps) !! i = Some p -> ps !! i = Some p' ->
            receivedQuitSignal p' <> receivedQuitSignal p ->
            receivedQuitSignal p = 0 /\ receivedQuitSignal p' = 1).
  { intros i p p' Hp Hp' Hne.
    assert (Hlt : (i < length steps)%nat).
    { apply lookup_lt_Some in Hp'. rewrite (run_length _ _ _ Hrun) in Hp'. lia. }
    destruct (lookup_lt_is_Some_2 _ _ Hlt) as [s Hs].
    eapply Hchange; eassumption. }
  split; [reflexivity|]. split; [|split; [|split; [exact Hchange|]]].
  - intros i p Hp.
    destruct (run_sound _ _ _ _ _ Hrun flag_sound_start Hp) as [|[? _]]; auto.
  - intros i j p p' Hij Hp Hp'.
    eapply run_keeps_set; [exact Hrun|exact flag_sound_start|exact Hij|exact Hp|exact Hp'].
  - intros i j p p' q q' Hp Hp' Hq Hq' Hne1 Hne2.
    destruct (Hchange' _ _ _ Hp Hp' Hne1) as [Hp0 Hp1].
    destruct (Hchange' _ _ _ Hq Hq' Hne2) as [Hq0 Hq1].
    destruct (Nat.lt_total i j) as [Hlt|[Heq|Hgt]]; [|exact Heq|]; exfalso.
    + assert (receivedQuitSignal q = 1); [|congruence].
      eapply (run_keeps_set _ _ _ (S i) j p' q Hrun flag_sound_start);
        [lia|exact Hp'|exact Hq|exact Hp1].
    + assert (receivedQuitSignal p = 1); [|congruence].
      eapply (run_keeps_set _ _ _ (S j) i q' p Hrun flag_sound_start);
        [lia|exact Hq'|exact Hp|exact Hq1].
Qed.

Lemma C9_witness :
  run [ClearFlag; InstallHandler; HandleQuitSignal; WorkerReads 0; Exit]
      process_start
  = Some [mkProcess 0 FlagCleared; mkProcess 0 HandlerInstalled;
          mkProcess 1 HandlerInstalled; mkProcess 1 HandlerInstalled;
          mkProcess 1 Ended]
  /\ receivedQuitSignal (mkProcess 1 Ended) = 1.
Proof.
  split; [reflexivity|].
  exact (proj1 (proj2 (proj2
           (C9_flag_set_once
              [ClearFlag; InstallHandler; HandleQuitSignal; WorkerReads 0; Exit]
              _ eq_refl)))
         3%nat 5%nat (mkProcess 1 HandlerInstalled) (mkProcess 1 Ended)
         ltac:(lia) eq_refl eq_refl eq_refl).
Defined.

(** ** The dispatcher *)

Section Main_facts.

Lemma cancelled_app t1 t2 : cancelled (t1 ++ t2) = cancelled t1 ++ cancelled t2.
Proof. apply omap_app. Qed.

Lemma joined_app t1 t2 : joined (t1 ++ t2) = joined t1 ++ joined t2.
Proof. apply omap_app. Qed.

(** The roll-back loop started at [iter] calls [pthread_cancel] on the
    threads [iter - 1] down to 0, then decrements the unsigned 0 to
    [ULONG_MAX] and reads [threads[ULONG_MAX]], which no array has. *)
Lemma cancel_loop_runs_off fuel env (threads : list Z) iter trace :
  0 <= iter <= Z.of_nat (length threads) ->
  Z.of_nat (length threads) <= ULONG_MAX ->
  (Z.to_nat iter < fuel)%nat ->
  exists trace',
    cancel_loop fuel env threads iter trace = Some (trace', Fault ULONG_MAX)
    /\ cancelled trace' = cancelled trace ++ reverse (seqZ 0 iter)
    /\ joined trace' = joined trace.
Proof.
  revert iter trace.
  induction fuel as [|fuel IH]; intros iter trace Hi Hlen Hf; [lia|].
  simpl. destruct (Z.eq_dec iter 0) as [->|Hne].
  - change (ulong (0 - 1)) with ULONG_MAX.
    change (0 <=? ULONG_MAX) with true. cbv iota.
    rewrite array_get_outside by exact Hlen.
    exists trace. split; [reflexivity|]. split; [|reflexivity].
    rewrite seqZ_nil by lia. now rewrite app_nil_r.
  - rewrite ulong_small by lia.
    destruct (Z.leb_spec 0 (iter - 1)); [|lia].
    rewrite array_get_inside by lia.
    destruct (lookup_lt_is_Some_2 threads (Z.to_nat (iter - 1)) ltac:(lia))
      as [thread ->].
    destruct (IH (iter - 1)
                (trace ++ Cancelled (iter - 1)
                   :: (if pthread_cancel_ret env (iter - 1) =? 0 then []
                       else [Stderr (CancellationError
                                       (pthread_cancel_ret env (iter - 1)))])))
      as (trace' & Hrun & Hc & Hj); try lia.
    exists trace'. split; [exact Hrun|]. split.
    + assert (Hseq : seqZ 0 iter = seqZ 0 (iter - 1) ++ [iter - 1]).
      { transitivity (seqZ 0 ((iter - 1) + 1)); [f_equal; lia|].
        rewrite seqZ_app by lia. f_equal. }
      rewrite Hc, cancelled_app, Hseq, reverse_snoc, <- app_assoc. f_equal.
      destruct (pthread_cancel_ret env (iter - 1) =? 0); reflexivity.
    + rewrite Hj, joined_app.
      destruct (pthread_cancel_ret env (iter - 1) =? 0); simpl;
        now rewrite app_nil_r.
Qed.

Lemma launch_result_zero env iter :
  launch_result env iter = 0 -> pthread_create_ret env iter = 0.
Proof.
  unfold launch_result. intros H.
  apply Z.lor_eq_0_iff in H as [H _].
  apply Z.lor_eq_0_iff in H as [_ H]. exact H.
Qed.

Lemma array_set_length {A} (a : list A) i x :
  length (array_set a i x) = length a.
Proof. unfold array_set. apply length_insert. Qed.

(** One round of the launch loop when the five calls succeed. *)
Lemma launch_loop_round fuel env N iter bk result trace :
  0 <= iter < N -> N <= ULONG_MAX -> launch_result env iter = 0 ->
  launch_loop (S fuel) env N iter bk result trace
  = launch_loop fuel env N (iter + 1)
      (mkBookkeeping
         (array_set (threads bk) iter (pthread_create_handle env iter))
         (array_set (threadArguments bk) iter
            (fill_arguments ULONG_MAX (cwd env) N iter)))
      0
      (trace ++ [Created iter (fill_arguments ULONG_MAX (cwd env) N iter)]).
Proof.
  intros Hi HN Hz. cbn [launch_loop].
  rewrite (ulong_small N) by lia.
  destruct (Z.ltb_spec iter N); [|lia].
  rewrite (launch_result_zero _ _ Hz), Hz. cbn [Z.eqb].
  now rewrite (ulong_small (iter + 1)) by lia.
Qed.

(** A launch that fails at thread [k], after [k] launches that succeeded,
    ends in the roll-back loop and with it outside the array. *)
Lemma launch_loop_failure fuel env N iter bk result trace k :
  0 <= iter <= k -> k < N -> N <= ULONG_MAX ->
  Z.of_nat (length (threads bk)) = N ->
  (forall j, iter <= j < k -> launch_result env j = 0) ->
  launch_result env k <> 0 ->
  (Z.to_nat (k - iter) < fuel)%nat ->
  exists bk' trace',
    launch_loop fuel env N iter bk result trace
      = Some (bk', trace', Fault ULONG_MAX)
    /\ cancelled trace' = cancelled trace ++ reverse (seqZ 0 k)
    /\ joined trace' = joined trace.
Proof.
  revert iter bk result trace.
  induction fuel as [|fuel IH]; intros iter bk result trace Hi Hk HN Hlen Hok Hbad Hf;
    [lia|].
  destruct (Z.eq_dec iter k) as [->|Hne].
  - cbn [launch_loop]. rewrite (ulong_small N) by lia.
    destruct (Z.ltb_spec k N); [|lia].
    destruct (Z.eqb_spec (launch_result env k) 0) as [|_]; [contradiction|].
    cbn [threads].
    set (threads' := if pthread_create_ret env k =? 0
                     then array_set (threads bk) k (pthread_create_handle env k)
                     else threads bk).
    set (trace0 := (trace ++ (if pthread_create_ret env k =? 0
                              then [Created k (fill_arguments ULONG_MAX (cwd env) N k)]
                              else []))
                   ++ [Stderr (CreationResult (launch_result env k))]).
    assert (Hlen' : Z.of_nat (length threads') = N).
    { subst threads'. destruct (pthread_create_ret env k =? 0);
        [rewrite array_set_length|]; exact Hlen. }
    destruct (cancel_loop_runs_off (S (Z.to_nat k)) env threads' k trace0)
      as (trace' & Hrun & Hc & Hj); try lia.
    rewrite Hrun. eexists _, trace'. split; [reflexivity|].
    rewrite Hc, Hj. subst trace0. rewrite !cancelled_app, !joined_app.
    destruct (pthread_create_ret env k =? 0); simpl; rewrite !app_nil_r; auto.
  - rewrite launch_loop_round by (try apply Hok; lia).
    destruct (IH (iter + 1)
                (mkBookkeeping
                   (array_set (threads bk) iter (pthread_create_handle env iter))
                   (array_set (threadArguments bk) iter
                      (fill_arguments ULONG_MAX (cwd env) N iter)))
                0
                (trace ++ [Created iter (fill_arguments ULONG_MAX (cwd env) N iter)]))
      as (bk' & trace' & Hrun & Hc & Hj); try lia.
    + cbn [threads]. now rewrite array_set_length.
    + intros j Hjk. apply Hok. lia.
    + exists bk', trace'. split; [exact Hrun|].
      rewrite Hc, Hj, cancelled_app, joined_app. simpl.
      now rewrite !app_nil_r.
Qed.

(** A launch in which every thread starts: the handles and the arguments
    of the threads from [iter] on are written into the arrays, the rest of
    the arrays is left alone, nothing is cancelled or joined. *)
Lemma launch_loop_success fuel env N iter bk result trace :
  0 <= iter <= N -> N <= ULONG_MAX ->
  Z.of_nat (length (threads bk)) = N ->
  Z.of_nat (length (threadArguments bk)) = N ->
  (forall j, iter <= j < N -> launch_result env j = 0) ->
  (Z.to_nat (N - iter) < fuel)%nat ->
  exists bk' trace',
    launch_loop fuel env N iter bk result trace
      = Some (bk', trace', Normal (if iter <? N then 0 else result))
    /\ Z.of_nat (length (threads bk')) = N
    /\ Z.of_nat (length (threadArguments bk')) = N
    /\ (forall j, iter <= j < N ->
          threads bk' !! Z.to_nat j = Some (pthread_create_handle env j)
          /\ threadArguments bk' !! Z.to_nat j
             = Some (fill_arguments ULONG_MAX (cwd env) N j))
    /\ (forall j, 0 <= j < iter ->
          threads bk' !! Z.to_nat j = threads bk !! Z.to_nat j
          /\ threadArguments bk' !! Z.to_nat j
             = threadArguments bk !! Z.to_nat j)
    /\ cancelled trace' = cancelled trace
    /\ joined trace' = joined trace.
Proof.
  revert iter bk result trace.
  induction fuel as [|fuel IH];
    intros iter bk result trace Hi HN Hlt Hla Hok Hf; [lia|].
  destruct (Z.eq_dec iter N) as [->|Hne].
  - cbn [launch_loop]. rewrite (ulong_small N) by lia.
    rewrite Z.ltb_irrefl. exists bk, trace.
    repeat split; auto; lia.
  - rewrite launch_loop_round by (try apply Hok; lia).
    destruct (Z.ltb_spec iter N); [|lia].
    set (bk1 := mkBookkeeping
                  (array_set (threads bk) iter (pthread_create_handle env iter))
                  (array_set (threadArguments bk) iter
                     (fill_arguments ULONG_MAX (cwd env) N iter))).
    destruct (IH (iter + 1) bk1 0
                (trace ++ [Created iter (fill_arguments ULONG_MAX (cwd env) N iter)]))
      as (bk' & trace' & Hrun & Hlt' & Hla' & Hnew & Hold & Hc & Hj); try lia.
    + subst bk1. cbn [threads]. now rewrite array_set_length.
    + subst bk1. cbn [threadArguments]. now rewrite array_set_length.
    + intros j Hjk. apply Hok. lia.
    + exists bk', trace'. split.
      { rewrite Hrun. destruct (iter + 1 <? N); reflexivity. }
      split; [exact Hlt'|]. split; [exact Hla'|]. split; [|split; [|split]].
      * intros j Hjk. destruct (Z.eq_dec j iter) as [->|Hji].
        -- destruct (Hold iter ltac:(lia)) as [-> ->]. subst bk1.
           cbn [threads threadArguments]. unfold array_set.
           rewrite !list_lookup_insert_eq by lia. auto.
        -- apply Hnew. lia.
      * intros j Hjk. destruct (Hold j ltac:(lia)) as [-> ->]. subst bk1.
        cbn [threads threadArguments]. unfold array_set.
        rewrite !list_lookup_insert_ne by lia. auto.
      * rewrite Hc, cancelled_app. simpl. now rewrite app_nil_r.
      * rewrite Hj, joined_app. simpl. now rewrite app_nil_r.
Qed.

(** The join loop over an array whose handles from [iter] on are nonzero
    joins every one of them and keeps the result of the last join only. *)
Lemma join_loop_all fuel env N iter (handles : list Z) result trace :
  0 <= iter <= N -> N <= ULONG_MAX ->
  Z.of_nat (length handles) = N ->
  (forall j, iter <= j < N ->
     exists h, handles !! Z.to_nat j = Some h /\ h <> 0) ->
  (Z.to_nat (N - iter) < fuel)%nat ->
  exists trace',
    join_loop fuel env N iter handles result trace
      = Some (trace',
              Normal (if iter <? N then pthread_join_ret env (N - 1)
                      else result))
    /\ joined trace' = joined trace ++ seqZ iter (N - iter)
    /\ cancelled trace' = cancelled trace.
Proof.
  revert iter result trace.
  induction fuel as [|fuel IH]; intros iter result trace Hi HN Hlen Hnz Hf; [lia|].
  cbn [join_loop]. rewrite (ulong_small N) by lia.
  destruct (Z.ltb_spec iter N) as [Hlt|Hge].
  - rewrite array_get_inside by lia.
    destruct (Hnz iter ltac:(lia)) as (h & -> & Hh).
    destruct (Z.eqb_spec h 0) as [|_]; [contradiction|].
    rewrite (ulong_small (iter + 1)) by lia.
    destruct (IH (iter + 1) (pthread_join_ret env iter)
                (trace ++ Joined iter
                   :: (if pthread_join_ret env iter =? 0 then []
                       else [Stderr (JoinError (pthread_join_ret env iter))])))
      as (trace' & Hrun & Hj & Hc); try lia.
    { intros j Hjk. apply Hnz. lia. }
    exists trace'. split.
    { rewrite Hrun. destruct (Z.ltb_spec (iter + 1) N); [reflexivity|].
      replace (N - 1) with iter by lia. reflexivity. }
    split.
    + rewrite Hj, joined_app, (seqZ_cons iter) by lia.
      rewrite <- app_assoc. f_equal.
      replace (Z.pred (N - iter)) with (N - (iter + 1)) by lia.
      rewrite <- Z.add_1_r.
      destruct (pthread_join_ret env iter =? 0); reflexivity.
    + rewrite Hc, cancelled_app.
      destruct (pthread_join_ret env iter =? 0); simpl; now rewrite app_nil_r.
  - exists trace. split; [reflexivity|]. split; [|reflexivity].
    rewrite seqZ_nil by lia. now rewrite app_nil_r.
Qed.

End Main_facts.

(** [main] on a machine where the handler is installed, [sysconf] reports
    [N >= 1] cores (other than 22) and both arrays are allocated. *)
Section Main_runs.

Variables (env : Env) (N : Z).
Hypothesis sigaction_ok : sigaction_ret env <> -1.
Hypothesis cores : sysconf_ret env = N.
Hypothesis cores_pos : 1 <= N.
Hypothesis cores_not_22 : N <> EINVAL.
Hypothesis arrays_fit : N * sizeof_ThreadArguments <= ULONG_MAX.
Hypothesis threads_allocated : calloc_threads_ok env = true.
Hypothesis arguments_allocated : calloc_arguments_ok env = true.

Lemma cores_ulong : N <= ULONG_MAX /\ N * sizeof_pthread_t <= ULONG_MAX.
Proof.
  clear - arrays_fit cores_pos.
  unfold sizeof_ThreadArguments, sizeof_pthread_t, FILENAME_MAX in *. lia.
Qed.

Lemma main_reaches_launch :
  main env =
    match launch_loop (S (Z.to_nat N)) env N 0
            (mkBookkeeping (replicate (Z.to_nat N) 0)
                           (replicate (Z.to_nat N) zero_arguments))
            EXIT_SUCCESS [] with
    | None => None
    | Some (_, trace, Fault index) => Some (trace, OutOfBounds index)
    | Some (bk, trace, Normal result) =>
        if EXIT_FAILURE =? result then Some (trace, Exited result)
        else
          match join_loop (S (Z.to_nat N)) env N 0 (threads bk) result trace with
          | None => None
          | Some (trace, Fault index) => Some (trace, OutOfBounds index)
          | Some (trace, Normal result) => Some (trace, Exited result)
          end
    end.
Proof.
  pose proof cores_ulong as [HN H8].
  unfold main. rewrite cores.
  destruct (Z.eqb_spec (sigaction_ret env) (-1)) as [|_]; [contradiction|].
  destruct (Z.eqb_spec EINVAL N) as [E|_]; [symmetry in E; contradiction|].
  unfold calloc. rewrite threads_allocated, arguments_allocated.
  rewrite (ulong_small N) by lia.
  destruct (Z.leb_spec (N * sizeof_pthread_t) ULONG_MAX); [|lia].
  destruct (Z.leb_spec (N * sizeof_ThreadArguments) ULONG_MAX); [|lia].
  reflexivity.
Qed.

(** Whichever thread fails to start, [main] cancels the threads before it
    in descending order and then leaves the array: it joins nothing and
    does not return a status. *)
Lemma main_spawn_failure_never_exits k :
  0 <= k < N ->
  (forall j, 0 <= j < k -> launch_result env j = 0) ->
  launch_result env k <> 0 ->
  exists trace,
    main env = Some (trace, OutOfBounds ULONG_MAX)
    /\ cancelled trace = reverse (seqZ 0 k)
    /\ joined trace = [].
Proof.
  intros Hk Hok Hbad. pose proof cores_ulong as [HN _].
  rewrite main_reaches_launch.
  destruct (launch_loop_failure (S (Z.to_nat N)) env N 0
              (mkBookkeeping (replicate (Z.to_nat N) 0)
                             (replicate (Z.to_nat N) zero_arguments))
              EXIT_SUCCESS [] k)
    as (bk' & trace' & -> & Hc & Hj); try lia; try assumption.
  - cbn [threads]. rewrite length_replicate. lia.
  - exists trace'. auto.
Qed.

(** When every thread starts, [main] joins them all in ascending order and
    returns what the last [pthread_join] returned. *)
Lemma main_returns_last_join :
  (forall j, 0 <= j < N -> launch_result env j = 0) ->
  (forall j, 0 <= j < N -> pthread_create_handle env j <> 0) ->
  exists trace,
    main env = Some (trace, Exited (pthread_join_ret env (N - 1)))
    /\ joined trace = seqZ 0 N
    /\ cancelled trace = [].
Proof.
  intros Hok Hnz. pose proof cores_ulong as [HN _].
  rewrite main_reaches_launch.
  destruct (launch_loop_success (S (Z.to_nat N)) env N 0
              (mkBookkeeping (replicate (Z.to_nat N) 0)
                             (replicate (Z.to_nat N) zero_arguments))
              EXIT_SUCCESS [])
    as (bk' & trace' & -> & Hlt & _ & Hnew & _ & Hc & Hj); try lia;
    try assumption.
  - cbn [threads]. rewrite length_replicate. lia.
  - cbn [threadArguments]. rewrite length_replicate. lia.
  - destruct (Z.ltb_spec 0 N); [|lia].
    change (EXIT_FAILURE =? 0) with false. cbv iota.
    destruct (join_loop_all (S (Z.to_nat N)) env N 0 (threads bk') 0 trace')
      as (trace'' & -> & Hj' & Hc'); try lia; try assumption.
    + intros j Hjk. exists (pthread_create_handle env j).
      split; [apply Hnew; lia|apply Hnz; lia].
    + destruct (Z.ltb_spec 0 N); [|lia].
      exists trace''. split; [reflexivity|].
      rewrite Hj', Hc', Hj, Hc. simpl. split; [f_equal; lia|reflexivity].
Qed.

(** After a launch in which every thread starts, the argument array is
    the partition of [[0, ULONG_MAX)]. *)
Lemma launch_fills_partition :
  (forall j, 0 <= j < N -> launch_result env j = 0) ->
  exists bk trace result,
    launch_loop (S (Z.to_nat N)) env N 0
      (mkBookkeeping (replicate (Z.to_nat N) 0)
                     (replicate (Z.to_nat N) zero_arguments))
      EXIT_SUCCESS [] = Some (bk, trace, Normal result)
    /\ threadArguments bk = partition ULONG_MAX (cwd env) N.
Proof.
  intros Hok. pose proof cores_ulong as [HN _].
  destruct (launch_loop_success (S (Z.to_nat N)) env N 0
              (mkBookkeeping (replicate (Z.to_nat N) 0)
                             (replicate (Z.to_nat N) zero_arguments))
              EXIT_SUCCESS [])
    as (bk' & trace' & Hrun & _ & Hla & Hnew & _); try lia; try assumption.
  - cbn [threads]. rewrite length_replicate. lia.
  - cbn [threadArguments]. rewrite length_replicate. lia.
  - exists bk', trace', (if 0 <? N then 0 else EXIT_SUCCESS).
    split; [exact Hrun|].
    apply list_eq. intros i.
    destruct (Z.lt_ge_cases (Z.of_nat i) N) as [Hlt|Hge].
    + destruct (Hnew (Z.of_nat i) ltac:(lia)) as [_ Ha].
      rewrite Nat2Z.id in Ha. rewrite Ha. symmetry.
      unfold partition. rewrite list_lookup_fmap, lookup_seqZ_lt by lia.
      reflexivity.
    + rewrite (lookup_ge_None_2 (threadArguments bk')) by lia.
      symmetry. apply lookup_ge_None_2.
      unfold partition. rewrite length_fmap, length_seqZ. lia.
Qed.

End Main_runs.

(** A failed allocation ends the process with [EXIT_FAILURE] before any
    thread is started. *)
Lemma main_allocation_failure env :
  sigaction_ret env <> -1 -> sysconf_ret env <> EINVAL ->
  calloc_threads_ok env = false \/ calloc_arguments_ok env = false ->
  main env = Some ([Stderr (Err EXIT_FAILURE "Memory allocation error.")],
                   Exited EXIT_FAILURE).
Proof.
  intros Hs Hc Hm. unfold main.
  destruct (Z.eqb_spec (sigaction_ret env) (-1)) as [|_]; [contradiction|].
  destruct (Z.eqb_spec EINVAL (sysconf_ret env)) as [E|_];
    [symmetry in E; contradiction|].
  unfold calloc. destruct Hm as [-> | ->]; simpl.
  - reflexivity.
  - destruct (_ && _); reflexivity.
Qed.

(** When [sysconf] fails it returns -1, which is not [EINVAL]: the check
    of line 68 lets it through, and the process stops only because
    [calloc] refuses 2^64 - 1 cells. *)
Lemma main_enumeration_failure env :
  sigaction_ret env <> -1 -> sysconf_ret env = -1 ->
  main env = Some ([Stderr (Err EXIT_FAILURE "Memory allocation error.")],
                   Exited EXIT_FAILURE).
Proof.
  intros Hs Hc. unfold main. rewrite Hc.
  destruct (Z.eqb_spec (sigaction_ret env) (-1)) as [|_]; [contradiction|].
  change (EINVAL =? -1) with false. cbv iota.
  unfold calloc.
  change (ulong (-1) * sizeof_pthread_t <=? ULONG_MAX) with false.
  rewrite andb_false_r. reflexivity.
Qed.

(** A machine with 22 cores is taken for a failed enumeration, and one
    reporting no core at all runs to a successful exit. *)
Example main_22_cores :
  main (all_succeed 22)
  = Some ([Stderr (Err EXIT_FAILURE "Can't enumerate number of CPU cores.")],
          Exited EXIT_FAILURE).
Proof. reflexivity. Qed.

Example main_no_core : main (all_succeed 0) = Some ([], Exited 0).
Proof. reflexivity. Qed.

Example main_two_cores :
  main (all_succeed 2)
  = Some ([Created 0 (fill_arguments ULONG_MAX "/home/user" 2 0);
           Created 1 (fill_arguments ULONG_MAX "/home/user" 2 1);
           Joined 0; Joined 1],
          Exited 0).
Proof. vm_compute. reflexivity. Qed.

(** C6, on the code.  Two cores, [pthread_create] fails with EAGAIN (11)
    for thread 1: [main] starts thread 0, prints the creation result,
    cancels thread 0, and then, instead of leaving the loop and returning
    [EXIT_FAILURE], decrements the unsigned index past 0 and reads
    [threads[ULONG_MAX]].  When it is thread 0 that fails, the out-of-range
    read is the first thing the roll-back does. *)
Theorem C6_rollback_runs_off_the_array :
  main (spawn_fails_at 2 1 11)
  = Some ([Created 0 (fill_arguments ULONG_MAX "/home/user" 2 0);
           Stderr (CreationResult 11);
           Cancelled 0],
          OutOfBounds ULONG_MAX)
  /\ main (spawn_fails_at 2 0 11)
     = Some ([Stderr (CreationResult 11)], OutOfBounds ULONG_MAX).
Proof. split; vm_compute; reflexivity. Qed.

(** C7, on the code.  Two cores, every launch succeeds, [pthread_join]
    returns ESRCH (3) for thread 0 and 0 for thread 1: the join error is
    printed, and [main] returns the result of the last join, 0. *)
Theorem C7_join_failure_exits_zero :
  main (join_fails_at 2 0 3)
  = Some ([Created 0 (fill_arguments ULONG_MAX "/home/user" 2 0);
           Created 1 (fill_arguments ULONG_MAX "/home/user" 2 1);
           Joined 0; Stderr (JoinError 3); Joined 1],
          Exited 0).
Proof. vm_compute. reflexivity. Qed.

(** * Further properties of the code *)

(** ** The primality test and the numbers a thread writes *)

Section Primality_facts.

Lemma no_divisor_iff_prime num :
  2 <= num -> (~ has_divisor_from 2 num <-> Z.prime num).
Proof.
  intros Hn. unfold Z.prime, has_divisor_from. split.
  - intros Hno. split; [lia|]. intros n Hr Hdiv. apply Hno.
    exists n. split; [lia|]. apply Z.mod_divide; [lia|exact Hdiv].
  - intros [_ Hp] [d [Hr Hm]]. apply (Hp d); [lia|].
    apply Z.mod_divide; [lia|exact Hm].
Qed.

Lemma IsPrimeNumber_prime num :
  2 <= num <= ULONG_MAX -> (IsPrimeNumber num = Some 1 <-> Z.prime num).
Proof.
  intros Hn. rewrite <- no_divisor_iff_prime by lia.
  destruct (IsPrimeNumber_spec num ltac:(lia)) as [[Hd Hr]|[Hd Hr]];
    rewrite Hr; split; intros H; try tauto; try discriminate.
Qed.

Lemma primes_from_app start m len :
  0 <= m <= len ->
  primes_from start len = primes_from start m ++ primes_from (start + m) (len - m).
Proof.
  intros H. unfold primes_from.
  replace len with (m + (len - m)) at 1 by lia.
  rewrite seqZ_app by lia. apply filter_app.
Qed.

Lemma lines_app l1 l2 : lines (l1 ++ l2) = lines l1 +:+ lines l2.
Proof.
  induction l1 as [|x l1 IH]; [reflexivity|].
  change (line x +:+ lines (l1 ++ l2) = (line x +:+ lines l1) +:+ lines l2).
  now rewrite IH, append_assoc.
Qed.

End Primality_facts.

(** X1. From 2 on, [IsPrimeNumber] is the mathematical primality test: it
    answers 1 exactly on the Z.prime numbers and 0 exactly on the others. *)
Theorem X1_IsPrimeNumber_decides_primality (num : Z) :
  2 <= num <= ULONG_MAX ->
  (IsPrimeNumber num = Some 1 <-> Z.prime num)
  /\ (IsPrimeNumber num = Some 0 <-> ~ Z.prime num).
Proof.
  intros Hn. split; [apply IsPrimeNumber_prime; exact Hn|].
  rewrite <- (IsPrimeNumber_prime num Hn).
  destruct (IsPrimeNumber_spec num ltac:(lia)) as [[_ Hr]|[_ Hr]];
    rewrite Hr; split; intros H; congruence.
Qed.

Lemma X1_witness :
  IsPrimeNumber 97 = Some 1 <-> Z.prime 97.
Proof.
  assert (H : 2 <= 97 <= ULONG_MAX) by (unfold ULONG_MAX; lia).
  exact (proj1 (X1_IsPrimeNumber_decides_primality 97 H)).
Defined.

(** X2. A thread whose range starts at 2 or above, whose file opens and
    that never reads the flag set writes exactly the Z.prime numbers of its
    range. *)
Theorem X2_worker_writes_the_primes
    (fopen_ok : string -> bool) (quit : nat -> Z) (a : ThreadArguments) :
  fopen_ok (outputFileName a) = true ->
  (forall k, quit k = 0) ->
  2 <= beginCalculationsAt a -> endCalculationsAt a <= ULONG_MAX ->
  exists written,
    PrimeNumberGenerator fopen_ok quit a
      = Some (mkWorkerResult (Some (lines written)) [] NULL)
    /\ StronglySorted Z.lt written
    /\ (forall num, num ∈ written <-> in_range a num /\ Z.prime num).
Proof.
  intros Hopen Hquit Hb He.
  exists (primes_from (beginCalculationsAt a)
            (endCalculationsAt a - beginCalculationsAt a)).
  split; [apply PrimeNumberGenerator_never_quit; assumption || lia|].
  split; [apply primes_from_sorted|].
  intros num. rewrite elem_of_primes_from. unfold in_range. split.
  - intros [Hr Hp]. split; [lia|].
    apply IsPrimeNumber_prime; [lia|]. apply is_prime_b_true; [lia|exact Hp].
  - intros [Hr Hp]. split; [lia|].
    apply is_prime_b_true; [lia|]. apply IsPrimeNumber_prime; [lia|exact Hp].
Qed.

Lemma X2_witness :
  exists written,
    PrimeNumberGenerator (fun _ => true) (fun _ => 0)
      (mkThreadArguments 1 1 10 20 "/tmp/PRIMES_THREAD_0.TXT")
      = Some (mkWorkerResult (Some (lines written)) [] NULL)
    /\ StronglySorted Z.lt written
    /\ (forall num, num ∈ written <->
          in_range (mkThreadArguments 1 1 10 20 "/tmp/PRIMES_THREAD_0.TXT") num
          /\ Z.prime num).
Proof.
  refine (X2_worker_writes_the_primes (fun _ => true) (fun _ => 0)
            (mkThreadArguments 1 1 10 20 "/tmp/PRIMES_THREAD_0.TXT")
            eq_refl (fun _ => eq_refl) _ _).
  - simpl. lia.
  - simpl. unfold ULONG_MAX. lia.
Defined.

(** X3. Whatever the number of cores, the range of thread 0 starts at 0
    and holds at least 0 and 1, on which the loop of [IsPrimeNumber] is
    empty: the first two lines of the first file are 0 and 1. *)
Theorem X3_first_file_starts_with_0_and_1
    (fopen_ok : string -> bool) (quit : nat -> Z) (cwd : string) (N : Z) :
  1 <= N <= SSIZE_MAX ->
  fopen_ok (output_file_name cwd 0) = true ->
  (forall k, quit k = 0) ->
  exists rest,
    PrimeNumberGenerator fopen_ok quit (fill_arguments ULONG_MAX cwd N 0)
    = Some (mkWorkerResult (Some (lines (0 :: 1 :: rest))) [] NULL).
Proof.
  intros HN Hopen Hquit.
  assert (HD : 0 <= ULONG_MAX <= ULONG_MAX) by (unfold ULONG_MAX; lia).
  assert (HC : 1 <= N <= ULONG_MAX) by (unfold SSIZE_MAX, ULONG_MAX in *; lia).
  assert (Hq : 2 <= ULONG_MAX / N).
  { apply Z.div_le_lower_bound; unfold SSIZE_MAX, ULONG_MAX in *; lia. }
  pose proof (slice_begin_exact ULONG_MAX N HD HC 0 ltac:(lia)) as Hb.
  pose proof (slice_end_exact ULONG_MAX N HD HC 0 ltac:(lia)) as He.
  rewrite Z.mul_0_r in Hb. rewrite Z.mul_0_r, Z.add_0_l in He.
  exists (primes_from 2 (ULONG_MAX / N - 2)).
  rewrite PrimeNumberGenerator_never_quit; try assumption.
  - cbn [beginCalculationsAt endCalculationsAt fill_arguments].
    rewrite Hb, He, Z.sub_0_r.
    rewrite (primes_from_step 0) by lia.
    change (is_prime_b 0) with true. cbv iota.
    rewrite (primes_from_step (0 + 1)) by lia.
    change (is_prime_b (0 + 1)) with true. cbv iota.
    replace (ULONG_MAX / N - 1 - 1) with (ULONG_MAX / N - 2) by lia.
    reflexivity.
  - cbn [beginCalculationsAt fill_arguments]. rewrite Hb. lia.
  - cbn [endCalculationsAt fill_arguments]. rewrite He.
    pose proof (slice_size_bounds ULONG_MAX N HD HC). nia.
Qed.

Lemma X3_witness :
  exists rest,
    PrimeNumberGenerator (fun _ => true) (fun _ => 0)
      (fill_arguments ULONG_MAX "/home/user" 8 0)
    = Some (mkWorkerResult (Some (lines (0 :: 1 :: rest))) [] NULL).
Proof.
  refine (X3_first_file_starts_with_0_and_1 (fun _ => true) (fun _ => 0)
            "/home/user" 8 _ eq_refl (fun _ => eq_refl)).
  unfold SSIZE_MAX. lia.
Defined.

(** X4. What a thread has written when it sees the flag set is a prefix
    of what it writes when it is never interrupted: cancellation cuts the
    file at a line boundary and changes no line before the cut. *)
Theorem X4_cancelled_file_is_a_prefix
    (fopen_ok : string -> bool) (quit : nat -> Z) (a : ThreadArguments)
    (k : nat) :
  fopen_ok (outputFileName a) = true ->
  0 <= beginCalculationsAt a -> endCalculationsAt a <= ULONG_MAX ->
  (forall j, (j < k)%nat -> quit j = 0) -> quit k <> 0 ->
  exists cut rest,
    PrimeNumberGenerator fopen_ok quit a
      = Some (mkWorkerResult (Some (lines cut)) [] NULL)
    /\ PrimeNumberGenerator fopen_ok (fun _ => 0) a
       = Some (mkWorkerResult (Some (lines (cut ++ rest))) [] NULL)
    /\ lines (cut ++ rest) = lines cut +:+ lines rest.
Proof.
  intros Hopen Hb He Hclear Hset.
  set (b := beginCalculationsAt a). set (d := endCalculationsAt a - b).
  set (m := Z.min (Z.of_nat k) d).
  exists (primes_from b m), (primes_from (b + Z.max 0 m) (d - Z.max 0 m)).
  split; [|split; [|apply lines_app]].
  - apply (PrimeNumberGenerator_spec fopen_ok quit a (Z.of_nat k));
      try assumption; try lia.
    + intros j Hj. apply Hclear. lia.
    + intros _. now rewrite Nat2Z.id.
  - rewrite PrimeNumberGenerator_never_quit; try assumption; try reflexivity.
    fold b. fold d. do 4 f_equal.
    destruct (Z.le_gt_cases m 0) as [Hle|Hgt].
    + rewrite (primes_from_nil b m) by exact Hle.
      replace (Z.max 0 m) with 0 by lia.
      now rewrite Z.add_0_r, Z.sub_0_r.
    + replace (Z.max 0 m) with m by lia.
      apply primes_from_app. lia.
Qed.

Lemma X4_witness :
  exists cut rest,
    PrimeNumberGenerator (fun _ => true)
      (fun j => if (j <? 4)%nat then 0 else 1)
      (mkThreadArguments 1 1 10 20 "/tmp/PRIMES_THREAD_0.TXT")
      = Some (mkWorkerResult (Some (lines cut)) [] NULL)
    /\ PrimeNumberGenerator (fun _ => true) (fun _ => 0)
         (mkThreadArguments 1 1 10 20 "/tmp/PRIMES_THREAD_0.TXT")
       = Some (mkWorkerResult (Some (lines (cut ++ rest))) [] NULL)
    /\ lines (cut ++ rest) = lines cut +:+ lines rest.
Proof.
  refine (X4_cancelled_file_is_a_prefix (fun _ => true)
            (fun j => if (j <? 4)%nat then 0 else 1)
            (mkThreadArguments 1 1 10 20 "/tmp/PRIMES_THREAD_0.TXT") 4%nat
            eq_refl _ _ _ _).
  - simpl. lia.
  - simpl. unfold ULONG_MAX. lia.
  - intros j Hj. destruct (Nat.ltb_spec j 4); [reflexivity|lia].
  - simpl. discriminate.
Defined.

(** ** Text: lines and file names *)

Section Text_facts.

Lemma append_cons c (s t : string) : String c s +:+ t = String c (s +:+ t).
Proof. reflexivity. Qed.

Lemma append_length (s t : string) :
  String.length (s +:+ t) = (String.length s + String.length t)%nat.
Proof.
  induction s as [|c s IH]; [reflexivity|].
  rewrite append_cons. simpl. now rewrite IH.
Qed.

(** Two concatenations with left parts of the same length are equal only
    part by part. *)
Lemma append_eq_split (s1 s2 t1 t2 : string) :
  String.length s1 = String.length s2 ->
  s1 +:+ t1 = s2 +:+ t2 -> s1 = s2 /\ t1 = t2.
Proof.
  revert s2. induction s1 as [|c s1 IH]; intros [|c' s2] Hlen H;
    try discriminate Hlen.
  - split; [reflexivity|exact H].
  - rewrite !append_cons in H. injection H as -> H.
    simpl in Hlen. injection Hlen as Hlen.
    destruct (IH s2 Hlen H) as [-> ->]. split; reflexivity.
Qed.

Lemma append_cancel_r (s1 s2 t : string) : s1 +:+ t = s2 +:+ t -> s1 = s2.
Proof.
  intros H. apply (append_eq_split s1 s2 t t); [|exact H].
  apply (f_equal String.length) in H. rewrite !append_length in H. lia.
Qed.

Lemma substring_all (n : nat) (s : string) :
  (String.length s <= n)%nat -> String.substring 0 n s = s.
Proof.
  revert n. induction s as [|c s IH]; intros n H.
  - destruct n; reflexivity.
  - destruct n as [|n]; simpl in H; [lia|]. simpl. rewrite IH by lia. reflexivity.
Qed.

Lemma substring_append_long (n : nat) (s t : string) :
  (n <= String.length s)%nat ->
  String.substring 0 n (s +:+ t) = String.substring 0 n s.
Proof.
  revert s. induction n as [|n IH]; intros s H.
  - destruct s; [destruct t|]; reflexivity.
  - destruct s as [|c s]; simpl in H; [lia|].
    rewrite append_cons. simpl. rewrite IH by lia. reflexivity.
Qed.

Lemma no_newline_pretty_N_go (x : N) (s : string) :
  no_newline s = true -> no_newline (pretty_N_go x s) = true.
Proof.
  revert s. induction (N.lt_wf_0 x) as [x _ IH]; intros s Hs.
  destruct (N.eq_dec x 0%N) as [->|Hx].
  - rewrite pretty_N_go_0. exact Hs.
  - rewrite pretty_N_go_step by lia. apply IH.
    + apply N.div_lt; lia.
    + simpl. rewrite Hs, andb_true_r.
      unfold pretty_N_char. repeat case_match; reflexivity.
Qed.

(** A number printed in decimal holds no line feed. *)
Lemma no_newline_pretty (num : Z) : no_newline (pretty num) = true.
Proof.
  assert (HN : forall n : N, no_newline (pretty n) = true).
  { intros n. unfold pretty, pretty_N. case_decide; [reflexivity|].
    now apply no_newline_pretty_N_go. }
  destruct num as [|p|p]; [reflexivity|apply (HN (Npos p))|].
  change (no_newline (String "-"%char (pretty (Npos p))) = true).
  simpl. apply (HN (Npos p)).
Qed.

(** Two texts cut at their first line feed agree on both sides of it. *)
Lemma first_line_unique (s1 s2 r1 r2 : string) :
  no_newline s1 = true -> no_newline s2 = true ->
  s1 +:+ String "010"%char r1 = s2 +:+ String "010"%char r2 ->
  s1 = s2 /\ r1 = r2.
Proof.
  revert s2. induction s1 as [|c s1 IH]; intros [|c' s2] H1 H2 H.
  - injection H as ->. split; reflexivity.
  - rewrite append_cons in H. injection H as <- _.
    simpl in H2. discriminate H2.
  - rewrite append_cons in H. injection H as -> _.
    simpl in H1. discriminate H1.
  - rewrite !append_cons in H. injection H as -> H.
    simpl in H1, H2.
    apply andb_true_iff in H1 as [_ H1]. apply andb_true_iff in H2 as [_ H2].
    destruct (IH s2 H1 H2 H) as [-> ->]. split; reflexivity.
Qed.

Lemma line_split (num : Z) (rest : string) :
  line num +:+ rest = pretty num +:+ String "010"%char rest.
Proof. unfold line, newline. now rewrite append_assoc. Qed.

(** Names that fit the buffer are equal only for equal indices. *)
Lemma output_file_name_fits_inj (cwd : string) (i j : Z) :
  (String.length (cwd +:+ "/PRIMES_THREAD_" +:+ pretty i +:+ ".TXT")
   < FILENAME_MAX)%nat ->
  (String.length (cwd +:+ "/PRIMES_THREAD_" +:+ pretty j +:+ ".TXT")
   < FILENAME_MAX)%nat ->
  output_file_name cwd i = output_file_name cwd j -> i = j.
Proof.
  intros Hi Hj H. unfold output_file_name, snprintf in H.
  rewrite !substring_all in H by lia.
  apply (inj (String.append cwd)) in H.
  apply (inj (String.append "/PRIMES_THREAD_")) in H.
  apply append_cancel_r in H. apply (inj pretty) in H. exact H.
Qed.

End Text_facts.

(** X5. The text of a file determines the numbers that were written to
    it: two different lists of numbers never give the same lines. *)
Theorem X5_lines_determine_the_numbers (nums1 nums2 : list Z) :
  lines nums1 = lines nums2 -> nums1 = nums2.
Proof.
  revert nums2. induction nums1 as [|x nums1 IH]; intros [|y nums2] H.
  - reflexivity.
  - exfalso. change (lines []) with EmptyString in H.
    change (lines (y :: nums2)) with (line y +:+ lines nums2) in H.
    rewrite line_split in H. destruct (pretty y); discriminate H.
  - exfalso. change (lines []) with EmptyString in H.
    change (lines (x :: nums1)) with (line x +:+ lines nums1) in H.
    rewrite line_split in H. destruct (pretty x); discriminate H.
  - change (line x +:+ lines nums1 = line y +:+ lines nums2) in H.
    rewrite !line_split in H.
    apply first_line_unique in H as [Hxy Hrest]; try apply no_newline_pretty.
    apply (inj pretty) in Hxy. subst y. f_equal. apply IH, Hrest.
Qed.

Lemma X5_witness : [11; 13] = [11; 13].
Proof.
  exact (X5_lines_determine_the_numbers [11; 13] [11; 13] eq_refl).
Defined.

(** X6. As long as the formatted names fit the buffer of [FILENAME_MAX]
    characters, threads with different indices get different output
    files. *)
Theorem X6_output_files_are_distinct (cwd : string) (i j : Z) :
  (String.length (cwd +:+ "/PRIMES_THREAD_" +:+ pretty i +:+ ".TXT")
   < FILENAME_MAX)%nat ->
  (String.length (cwd +:+ "/PRIMES_THREAD_" +:+ pretty j +:+ ".TXT")
   < FILENAME_MAX)%nat ->
  i <> j ->
  output_file_name cwd i <> output_file_name cwd j.
Proof.
  intros Hi Hj Hne H. apply Hne. unfold output_file_name, snprintf in H.
  rewrite !substring_all in H by lia.
  apply (inj (String.append cwd)) in H.
  apply (inj (String.append "/PRIMES_THREAD_")) in H.
  apply append_cancel_r in H. apply (inj pretty) in H. exact H.
Qed.

Lemma X6_witness :
  output_file_name "/home/user" 0 <> output_file_name "/home/user" 1.
Proof.
  refine (X6_output_files_are_distinct "/home/user" 0 1 _ _ _).
  - vm_compute. lia.
  - vm_compute. lia.
  - discriminate.
Defined.

(** X7. When the working directory alone fills the buffer, [snprintf]
    cuts the thread index off: every thread is given the same file name,
    the first [FILENAME_MAX - 1] characters of the directory. *)
Theorem X7_long_directory_shares_one_file (cwd : string) (i j : Z) :
  (FILENAME_MAX - 1 <= String.length cwd)%nat ->
  output_file_name cwd i = String.substring 0 (FILENAME_MAX - 1) cwd
  /\ output_file_name cwd i = output_file_name cwd j.
Proof.
  intros H. unfold output_file_name, snprintf.
  rewrite !substring_append_long by exact H. split; reflexivity.
Qed.

Lemma X7_witness :
  output_file_name (deep_directory 2048) 0
  = output_file_name (deep_directory 2048) 1.
Proof.
  refine (proj2 (X7_long_directory_shares_one_file (deep_directory 2048) 0 1 _)).
  vm_compute. repeat constructor.
Defined.

(** ** The dispatcher: which threads are started, cancelled and joined *)

Section Dispatch_facts.

Lemma created_app t1 t2 : created (t1 ++ t2) = created t1 ++ created t2.
Proof. apply omap_app. Qed.

(** Neither the roll-back loop nor the join loop starts a thread. *)
Lemma cancel_loop_created fuel env handles iter trace trace' flow :
  cancel_loop fuel env handles iter trace = Some (trace', flow) ->
  created trace' = created trace.
Proof.
  revert iter trace. induction fuel as [|fuel IH]; intros iter trace H;
    [discriminate|].
  cbn [cancel_loop] in H.
  destruct (0 <=? ulong (iter - 1)); [|congruence].
  destruct (array_get handles (ulong (iter - 1))); [|congruence].
  apply IH in H. rewrite H, created_app.
  destruct (pthread_cancel_ret env (ulong (iter - 1)) =? 0); simpl;
    now rewrite app_nil_r.
Qed.

Lemma join_loop_created fuel env N iter handles result trace trace' flow :
  join_loop fuel env N iter handles result trace = Some (trace', flow) ->
  created trace' = created trace.
Proof.
  revert iter result trace. induction fuel as [|fuel IH];
    intros iter result trace H; [discriminate|].
  cbn [join_loop] in H.
  destruct (iter <? ulong N); [|congruence].
  destruct (array_get handles iter) as [h|]; [|congruence].
  destruct (h =? 0); [congruence|].
  apply IH in H. rewrite H, created_app.
  destruct (pthread_join_ret env iter =? 0); simpl; now rewrite app_nil_r.
Qed.

Lemma seqZ_first m n : 0 < n -> seqZ m n = m :: seqZ (m + 1) (n - 1).
Proof. intros H. rewrite seqZ_cons by exact H. now rewrite Z.add_1_r, Z.sub_1_r. Qed.

(** The threads started by a launch that fails at [k]: those before [k],
    and [k] itself when it is not [pthread_create] that failed. *)
Lemma launch_loop_failure_created fuel env N iter bk result trace k
    bk' trace' flow :
  0 <= iter <= k -> k < N -> N <= ULONG_MAX ->
  (forall j, iter <= j < k -> launch_result env j = 0) ->
  launch_result env k <> 0 ->
  launch_loop fuel env N iter bk result trace = Some (bk', trace', flow) ->
  created trace'
  = created trace ++ (started env N <$> seqZ iter (k - iter))
    ++ (if pthread_create_ret env k =? 0 then [started env N k] else []).
Proof.
  revert iter bk result trace.
  induction fuel as [|fuel IH]; intros iter bk result trace Hi Hk HN Hok Hbad H;
    [discriminate|].
  destruct (Z.eq_dec iter k) as [->|Hne].
  - cbn [launch_loop] in H. rewrite (ulong_small N) in H by lia.
    destruct (Z.ltb_spec k N); [|lia].
    destruct (Z.eqb_spec (launch_result env k) 0) as [|_]; [contradiction|].
    destruct (cancel_loop _ _ _ _ _) as [[trace1 flow1]|] eqn:E; [|discriminate].
    apply cancel_loop_created in E.
    assert (trace' = trace1) as -> by (destruct flow1; congruence).
    rewrite E, !created_app, Z.sub_diag, seqZ_nil by lia.
    unfold started. destruct (pthread_create_ret env k =? 0); simpl;
      now rewrite ?app_nil_r.
  - rewrite launch_loop_round in H by (try apply Hok; lia).
    apply IH in H; try lia.
    + rewrite H, created_app, (seqZ_first iter) by lia.
      replace (k - (iter + 1)) with (k - iter - 1) by lia.
      simpl. now rewrite <- app_assoc.
    + intros j Hj. apply Hok. lia.
Qed.

(** The threads started by a launch in which every call succeeds. *)
Lemma launch_loop_success_created fuel env N iter bk result trace
    bk' trace' flow :
  0 <= iter <= N -> N <= ULONG_MAX ->
  (forall j, iter <= j < N -> launch_result env j = 0) ->
  launch_loop fuel env N iter bk result trace = Some (bk', trace', flow) ->
  created trace' = created trace ++ (started env N <$> seqZ iter (N - iter)).
Proof.
  revert iter bk result trace.
  induction fuel as [|fuel IH]; intros iter bk result trace Hi HN Hok H;
    [discriminate|].
  destruct (Z.eq_dec iter N) as [->|Hne].
  - cbn [launch_loop] in H. rewrite (ulong_small N) in H by lia.
    rewrite Z.ltb_irrefl in H. injection H as _ <- _.
    rewrite seqZ_nil by lia. simpl. now rewrite app_nil_r.
  - rewrite launch_loop_round in H by (try apply Hok; lia).
    apply IH in H; try lia.
    + rewrite H, created_app, (seqZ_first iter) by lia.
      replace (N - (iter + 1)) with (N - iter - 1) by lia.
      simpl. now rewrite <- app_assoc.
    + intros j Hj. apply Hok. lia.
Qed.

(** The join loop leaves at the first zero handle. *)
Lemma join_loop_stops_at_zero fuel env N iter (handles : list Z) result
    trace z :
  0 <= iter <= z -> z < N -> N <= ULONG_MAX ->
  Z.of_nat (length handles) = N ->
  (forall j, iter <= j < z ->
     exists h, handles !! Z.to_nat j = Some h /\ h <> 0) ->
  handles !! Z.to_nat z = Some 0 ->
  (Z.to_nat (z - iter) < fuel)%nat ->
  exists trace',
    join_loop fuel env N iter handles result trace
      = Some (trace',
              Normal (if iter <? z then pthread_join_ret env (z - 1)
                      else result))
    /\ joined trace' = joined trace ++ seqZ iter (z - iter)
    /\ cancelled trace' = cancelled trace.
Proof.
  revert iter result trace.
  induction fuel as [|fuel IH]; intros iter result trace Hi Hz HN Hlen Hnz Hzero Hf;
    [lia|].
  cbn [join_loop]. rewrite (ulong_small N) by lia.
  destruct (Z.ltb_spec iter N); [|lia].
  rewrite array_get_inside by lia.
  destruct (Z.eq_dec iter z) as [->|Hne].
  - rewrite Hzero. cbn [Z.eqb]. rewrite Z.ltb_irrefl.
    exists trace. split; [reflexivity|]. split; [|reflexivity].
    rewrite seqZ_nil by lia. now rewrite app_nil_r.
  - destruct (Hnz iter ltac:(lia)) as (h & -> & Hh).
    destruct (Z.eqb_spec h 0) as [|_]; [contradiction|].
    rewrite (ulong_small (iter + 1)) by lia.
    destruct (IH (iter + 1) (pthread_join_ret env iter)
                (trace ++ Joined iter
                   :: (if pthread_join_ret env iter =? 0 then []
                       else [Stderr (JoinError (pthread_join_ret env iter))])))
      as (trace' & Hrun & Hj & Hc); try lia; try assumption.
    { intros j Hjz. apply Hnz. lia. }
    exists trace'. split.
    { rewrite Hrun. destruct (Z.ltb_spec iter z); [|lia].
      destruct (Z.ltb_spec (iter + 1) z); [reflexivity|].
      replace (z - 1) with iter by lia. reflexivity. }
    split.
    + rewrite Hj, joined_app, (seqZ_first iter) by lia.
      replace (z - (iter + 1)) with (z - iter - 1) by lia.
      rewrite <- app_assoc. f_equal.
      destruct (pthread_join_ret env iter =? 0); reflexivity.
    + rewrite Hc, cancelled_app.
      destruct (pthread_join_ret env iter =? 0); simpl; now rewrite app_nil_r.
Qed.

Lemma reaches_launch_ulong env N : reaches_launch env N -> N <= ULONG_MAX.
Proof.
  intros (_ & _ & Hpos & _ & Hfit & _).
  unfold sizeof_ThreadArguments, FILENAME_MAX in Hfit. lia.
Qed.

Lemma main_from_launch env N :
  reaches_launch env N ->
  main env =
    match launch_loop (S (Z.to_nat N)) env N 0
            (mkBookkeeping (replicate (Z.to_nat N) 0)
                           (replicate (Z.to_nat N) zero_arguments))
            EXIT_SUCCESS [] with
    | None => None
    | Some (_, trace, Fault index) => Some (trace, OutOfBounds index)
    | Some (bk, trace, Normal result) =>
        if EXIT_FAILURE =? result then Some (trace, Exited result)
        else
          match join_loop (S (Z.to_nat N)) env N 0 (threads bk) result trace with
          | None => None
          | Some (trace, Fault index) => Some (trace, OutOfBounds index)
          | Some (trace, Normal result) => Some (trace, Exited result)
          end
    end.
Proof.
  intros (H1 & H2 & H3 & H4 & H5 & H6 & H7).
  now apply main_reaches_launch.
Qed.

(** The whole trace of a launch that fails at thread [k]. *)
Lemma main_spawn_failure_trace env N k :
  reaches_launch env N -> 0 <= k < N ->
  (forall j, 0 <= j < k -> launch_result env j = 0) ->
  launch_result env k <> 0 ->
  exists trace,
    main env = Some (trace, OutOfBounds ULONG_MAX)
    /\ created trace
       = (started env N <$> seqZ 0 k)
         ++ (if pthread_create_ret env k =? 0 then [started env N k] else [])
    /\ cancelled trace = reverse (seqZ 0 k)
    /\ joined trace = [].
Proof.
  intros Hr Hk Hok Hbad. pose proof (reaches_launch_ulong _ _ Hr) as HN.
  rewrite (main_from_launch _ _ Hr).
  destruct (launch_loop_failure (S (Z.to_nat N)) env N 0
              (mkBookkeeping (replicate (Z.to_nat N) 0)
                             (replicate (Z.to_nat N) zero_arguments))
              EXIT_SUCCESS [] k)
    as (bk' & trace' & Hrun & Hc & Hj); try lia; try assumption.
  { cbn [threads]. rewrite length_replicate. lia. }
  rewrite Hrun. exists trace'. split; [reflexivity|].
  split; [|split; assumption].
  assert (H0k : 0 <= 0 <= k) by lia.
  rewrite (launch_loop_failure_created _ _ _ _ _ _ _ k _ _ _
             H0k (proj2 Hk) HN Hok Hbad Hrun).
  now rewrite Z.sub_0_r.
Qed.

(** The whole trace of a run in which every thread starts, up to the
    first zero handle [z] if there is one ([z = N] when there is none). *)
Lemma main_join_trace env N z :
  reaches_launch env N -> 0 <= z <= N ->
  (forall j, 0 <= j < N -> launch_result env j = 0) ->
  (forall j, 0 <= j < z -> pthread_create_handle env j <> 0) ->
  (z < N -> pthread_create_handle env z = 0) ->
  exists trace,
    main env = Some (trace, Exited (if 0 <? z then pthread_join_ret env (z - 1)
                                    else 0))
    /\ created trace = (started env N <$> seqZ 0 N)
    /\ joined trace = seqZ 0 z
    /\ cancelled trace = [].
Proof.
  intros Hr Hz Hok Hnz Hzero. pose proof (reaches_launch_ulong _ _ Hr) as HN.
  assert (HN1 : 1 <= N) by (destruct Hr as (_ & _ & H & _); exact H).
  rewrite (main_from_launch _ _ Hr).
  destruct (launch_loop_success (S (Z.to_nat N)) env N 0
              (mkBookkeeping (replicate (Z.to_nat N) 0)
                             (replicate (Z.to_nat N) zero_arguments))
              EXIT_SUCCESS [])
    as (bk' & trace' & Hrun & Hlt & _ & Hnew & _ & Hc & Hj); try lia;
    try assumption.
  { cbn [threads]. rewrite length_replicate. lia. }
  { cbn [threadArguments]. rewrite length_replicate. lia. }
  assert (H0N : 0 <= 0 <= N) by lia.
  pose proof (launch_loop_success_created _ _ _ _ _ _ _ _ _ _
                H0N HN Hok Hrun) as Hcr.
  rewrite Z.sub_0_r in Hcr. simpl in Hcr.
  rewrite Hrun. destruct (Z.ltb_spec 0 N); [|lia].
  change (EXIT_FAILURE =? 0) with false. cbv iota.
  destruct (Z.eq_dec z N) as [->|Hne].
  - destruct (join_loop_all (S (Z.to_nat N)) env N 0 (threads bk') 0 trace')
      as (trace'' & Hjoin & Hj' & Hc'); try lia; try assumption.
    { intros j Hjk. exists (pthread_create_handle env j).
      split; [apply Hnew; lia|apply Hnz; lia]. }
    rewrite Hjoin. destruct (Z.ltb_spec 0 N); [|lia].
    exists trace''. split; [reflexivity|].
    rewrite (join_loop_created _ _ _ _ _ _ _ _ _ Hjoin), Hcr, Hj', Hc', Hj, Hc.
    simpl. rewrite Z.sub_0_r. auto.
  - destruct (join_loop_stops_at_zero (S (Z.to_nat N)) env N 0 (threads bk') 0
                trace' z)
      as (trace'' & Hjoin & Hj' & Hc'); try lia; try assumption.
    { intros j Hjk. exists (pthread_create_handle env j).
      split; [apply Hnew; lia|apply Hnz; lia]. }
    { destruct (Hnew z ltac:(lia)) as [Hh _]. rewrite Hh.
      f_equal. apply Hzero. lia. }
    rewrite Hjoin. exists trace''. split; [reflexivity|].
    rewrite (join_loop_created _ _ _ _ _ _ _ _ _ Hjoin), Hcr, Hj', Hc', Hj, Hc.
    simpl. rewrite Z.sub_0_r. auto.
Qed.

Lemma started_partition env N :
  (started env N <$> seqZ 0 N).*2 = partition ULONG_MAX (cwd env) N.
Proof.
  unfold partition. rewrite <- list_fmap_compose. reflexivity.
Qed.

End Dispatch_facts.

(** X8. Whichever thread [k] fails to launch, [main] has by then started
    threads 0 to [k - 1], calls [pthread_cancel] on exactly those, from
    [k - 1] down to 0, joins none, and then reads [threads[ULONG_MAX]]
    instead of returning: no launch failure ends in an exit status. *)
Theorem X8_any_launch_failure_runs_off_the_array (env : Env) (N k : Z) :
  reaches_launch env N -> 0 <= k < N ->
  (forall j, 0 <= j < k -> launch_result env j = 0) ->
  launch_result env k <> 0 ->
  exists trace,
    main env = Some (trace, OutOfBounds ULONG_MAX)
    /\ cancelled trace = reverse (seqZ 0 k)
    /\ (forall j, j ∈ cancelled trace <-> 0 <= j < k)
    /\ joined trace = [].
Proof.
  intros Hr Hk Hok Hbad.
  destruct (main_spawn_failure_trace env N k Hr Hk Hok Hbad)
    as (trace & Hrun & _ & Hc & Hj).
  exists trace. split; [exact Hrun|]. split; [exact Hc|]. split; [|exact Hj].
  intros j. rewrite Hc, elem_of_reverse, elem_of_seqZ. lia.
Qed.

Lemma X8_witness :
  exists trace,
    main (spawn_fails_at 3 2 11) = Some (trace, OutOfBounds ULONG_MAX)
    /\ cancelled trace = reverse (seqZ 0 2)
    /\ (forall j, j ∈ cancelled trace <-> 0 <= j < 2)
    /\ joined trace = [].
Proof.
  refine (X8_any_launch_failure_runs_off_the_array (spawn_fails_at 3 2 11) 3 2
            _ _ _ _).
  - unfold reaches_launch. simpl. repeat split; try reflexivity; discriminate.
  - lia.
  - intros j Hj. unfold launch_result. simpl.
    destruct (Z.eqb_spec j 2); [lia|reflexivity].
  - vm_compute. discriminate.
Defined.

(** X9. When the launch of thread [k] fails although [pthread_create]
    itself succeeded (one of the attribute calls around it returned an
    error), thread [k] has been started and is not among the threads
    [main] cancels. *)
Theorem X9_started_thread_of_failed_launch_is_not_cancelled
    (env : Env) (N k : Z) :
  reaches_launch env N -> 0 <= k < N ->
  (forall j, 0 <= j < k -> launch_result env j = 0) ->
  launch_result env k <> 0 ->
  pthread_create_ret env k = 0 ->
  exists trace outcome,
    main env = Some (trace, outcome)
    /\ (started env N k ∈ created trace)
    /\ (k ∉ cancelled trace)
    /\ (k ∉ joined trace).
Proof.
  intros Hr Hk Hok Hbad Hcreate.
  destruct (main_spawn_failure_trace env N k Hr Hk Hok Hbad)
    as (trace & Hrun & Hcr & Hc & Hj).
  exists trace, (OutOfBounds ULONG_MAX). split; [exact Hrun|].
  rewrite Hcr, Hc, Hj, Hcreate. cbn [Z.eqb]. split; [|split].
  - apply elem_of_app. right. apply list_elem_of_singleton. reflexivity.
  - rewrite elem_of_reverse, elem_of_seqZ. lia.
  - apply not_elem_of_nil.
Qed.

Lemma X9_witness :
  exists trace outcome,
    main (destroy_fails_at 3 1 22) = Some (trace, outcome)
    /\ (started (destroy_fails_at 3 1 22) 3 1 ∈ created trace)
    /\ (1 ∉ cancelled trace)
    /\ (1 ∉ joined trace).
Proof.
  refine (X9_started_thread_of_failed_launch_is_not_cancelled
            (destroy_fails_at 3 1 22) 3 1 _ _ _ _ eq_refl).
  - unfold reaches_launch. simpl. repeat split; try reflexivity; discriminate.
  - lia.
  - intros j Hj. unfold launch_result. simpl.
    destruct (Z.eqb_spec j 1); [lia|reflexivity].
  - vm_compute. discriminate.
Defined.

(** X10. When every launch succeeds and no handle is zero, [main] starts
    thread [i] on the [i]-th assignment of the partition of
    [[0, ULONG_MAX)], joins all threads in index order, cancels none, and
    returns what the last [pthread_join] returned. *)
Theorem X10_full_run_joins_all_and_returns_last_join (env : Env) (N : Z) :
  reaches_launch env N ->
  (forall j, 0 <= j < N -> launch_result env j = 0) ->
  (forall j, 0 <= j < N -> pthread_create_handle env j <> 0) ->
  exists trace,
    main env = Some (trace, Exited (pthread_join_ret env (N - 1)))
    /\ (created trace).*1 = seqZ 0 N
    /\ (created trace).*2 = partition ULONG_MAX (cwd env) N
    /\ joined trace = seqZ 0 N
    /\ cancelled trace = [].
Proof.
  intros Hr Hok Hnz.
  assert (HN1 : 1 <= N) by (destruct Hr as (_ & _ & H & _); exact H).
  destruct (main_join_trace env N N Hr ltac:(lia) Hok Hnz ltac:(lia))
    as (trace & Hrun & Hcr & Hj & Hc).
  destruct (Z.ltb_spec 0 N); [|lia].
  exists trace. split; [exact Hrun|]. rewrite Hcr.
  split; [|split; [apply started_partition|split; assumption]].
  rewrite <- list_fmap_compose. apply list_fmap_id.
Qed.

Lemma X10_witness :
  exists trace,
    main (join_fails_at 3 2 3) = Some (trace, Exited 3)
    /\ (created trace).*1 = seqZ 0 3
    /\ (created trace).*2 = partition ULONG_MAX "/home/user" 3
    /\ joined trace = seqZ 0 3
    /\ cancelled trace = [].
Proof.
  refine (X10_full_run_joins_all_and_returns_last_join (join_fails_at 3 2 3) 3
            _ _ _).
  - unfold reaches_launch. simpl. repeat split; try reflexivity; discriminate.
  - intros j Hj. reflexivity.
  - intros j Hj. simpl. lia.
Defined.

(** X11. The join loop stops at the first zero handle: when every launch
    succeeds but [pthread_create] stored the zero handle for thread [z],
    [main] joins threads 0 to [z - 1] only, never waits for the threads
    from [z] on although they were started, and returns the result of the
    join of [z - 1] (0 when [z] is 0). *)
Theorem X11_zero_handle_ends_the_joins (env : Env) (N z : Z) :
  reaches_launch env N -> 0 <= z < N ->
  (forall j, 0 <= j < N -> launch_result env j = 0) ->
  (forall j, 0 <= j < z -> pthread_create_handle env j <> 0) ->
  pthread_create_handle env z = 0 ->
  exists trace,
    main env = Some (trace, Exited (if 0 <? z then pthread_join_ret env (z - 1)
                                    else 0))
    /\ (created trace).*1 = seqZ 0 N
    /\ joined trace = seqZ 0 z
    /\ (forall j, z <= j < N ->
          (j ∈ (created trace).*1) /\ (j ∉ joined trace)).
Proof.
  intros Hr Hz Hok Hnz Hzero.
  destruct (main_join_trace env N z Hr ltac:(lia) Hok Hnz (fun _ => Hzero))
    as (trace & Hrun & Hcr & Hj & Hc).
  assert (Hfst : (created trace).*1 = seqZ 0 N).
  { rewrite Hcr, <- list_fmap_compose. apply list_fmap_id. }
  exists trace. split; [exact Hrun|]. split; [exact Hfst|]. split; [exact Hj|].
  intros j Hjz. rewrite Hfst, Hj, !elem_of_seqZ. lia.
Qed.

Lemma X11_witness :
  exists trace,
    main (zero_handle_at 3 1 5)
    = Some (trace, Exited (if 0 <? 1 then 5 else 0))
    /\ (created trace).*1 = seqZ 0 3
    /\ joined trace = seqZ 0 1
    /\ (forall j, 1 <= j < 3 ->
          (j ∈ (created trace).*1) /\ (j ∉ joined trace)).
Proof.
  refine (X11_zero_handle_ends_the_joins (zero_handle_at 3 1 5) 3 1 _ _ _ _ eq_refl).
  - unfold reaches_launch. simpl. repeat split; try reflexivity; discriminate.
  - lia.
  - intros j Hj. reflexivity.
  - intros j Hj. simpl. destruct (Z.eqb_spec j 1); lia.
Defined.

(** X12. A failed enumeration ([sysconf] returns a negative count) is not
    caught by the comparison with [EINVAL]; the count, converted to
    [size_t], makes the first [calloc] overflow, and the process exits
    with [EXIT_FAILURE] and the message of the allocation error, whatever
    memory is available, before any thread is started. *)
Theorem X12_negative_count_ends_as_allocation_error (env : Env) :
  sigaction_ret env <> -1 ->
  - SSIZE_MAX - 1 <= sysconf_ret env < 0 ->
  main env = Some ([Stderr (Err EXIT_FAILURE "Memory allocation error.")],
                   Exited EXIT_FAILURE).
Proof.
  intros Hs Hc. unfold main.
  destruct (Z.eqb_spec (sigaction_ret env) (-1)) as [|_]; [contradiction|].
  destruct (Z.eqb_spec EINVAL (sysconf_ret env)) as [E|_].
  { unfold EINVAL in E. lia. }
  assert (Hu : ulong (sysconf_ret env) = sysconf_ret env + (ULONG_MAX + 1)).
  { unfold ulong. symmetry. apply (Z.mod_unique _ _ (-1)).
    - left. unfold SSIZE_MAX, ULONG_MAX in *. lia.
    - lia. }
  unfold calloc. rewrite Hu.
  destruct (Z.leb_spec ((sysconf_ret env + (ULONG_MAX + 1)) * sizeof_pthread_t)
              ULONG_MAX) as [Hle|_].
  { unfold SSIZE_MAX, ULONG_MAX, sizeof_pthread_t in *. lia. }
  rewrite andb_false_r. reflexivity.
Qed.

Lemma X12_witness :
  main (all_succeed (-1))
  = Some ([Stderr (Err EXIT_FAILURE "Memory allocation error.")],
          Exited EXIT_FAILURE).
Proof.
  refine (X12_negative_count_ends_as_allocation_error (all_succeed (-1)) _ _).
  - simpl. discriminate.
  - simpl. unfold SSIZE_MAX. lia.
Defined.



(** X14. On the partition that [main] hands out, every thread but the
    first has a range that starts at 2 or above: if its file opens and it
    never reads the flag set, its file holds exactly the prime numbers of
    [[i * q, i * q + q)] with [q = floor(ULONG_MAX / N)], in ascending
    order. *)
Theorem X14_later_files_hold_exactly_the_primes_of_their_slice
    (fopen_ok : string -> bool) (quit : nat -> nat -> Z) (cwd : string)
    (N i : Z) :
  1 <= N <= SSIZE_MAX -> 1 <= i < N ->
  fopen_ok (output_file_name cwd i) = true ->
  (forall k, quit (Z.to_nat i) k = 0) ->
  exists written,
    run_workers fopen_ok quit (partition ULONG_MAX cwd N) !! Z.to_nat i
    = Some (Some (mkWorkerResult (Some (lines written)) [] NULL))
    /\ StronglySorted Z.lt written
    /\ (forall num, num ∈ written <->
          (ULONG_MAX / N) * i <= num < (ULONG_MAX / N) * i + ULONG_MAX / N
          /\ Z.prime num).
Proof.
  intros HN Hi Hopen Hquit.
  assert (HD : 0 <= ULONG_MAX <= ULONG_MAX) by (unfold ULONG_MAX; lia).
  assert (HC : 1 <= N <= ULONG_MAX) by (unfold SSIZE_MAX, ULONG_MAX in *; lia).
  assert (Hq : 2 <= ULONG_MAX / N).
  { apply Z.div_le_lower_bound; unfold SSIZE_MAX, ULONG_MAX in *; lia. }
  pose proof (slice_begin_exact ULONG_MAX N HD HC i ltac:(lia)) as Hb.
  pose proof (slice_end_exact ULONG_MAX N HD HC i ltac:(lia)) as He.
  pose proof (slice_no_overflow ULONG_MAX N HD HC i ltac:(lia)) as [_ Hov].
  set (a := fill_arguments ULONG_MAX cwd N i).
  assert (Hlook : partition ULONG_MAX cwd N !! Z.to_nat i = Some a).
  { apply (partition_lookup ULONG_MAX N cwd). rewrite Z2Nat.id by lia.
    split; [reflexivity|lia]. }
  exists (primes_from (beginCalculationsAt a)
            (endCalculationsAt a - beginCalculationsAt a)).
  split; [|split; [apply primes_from_sorted|]].
  - unfold run_workers. rewrite list_lookup_imap, Hlook. simpl. f_equal.
    apply PrimeNumberGenerator_never_quit.
    + exact Hopen.
    + exact Hquit.
    + subst a. cbn [beginCalculationsAt fill_arguments]. rewrite Hb. nia.
    + subst a. cbn [endCalculationsAt fill_arguments]. rewrite He. lia.
  - intros num. rewrite elem_of_primes_from.
    subst a. cbn [beginCalculationsAt endCalculationsAt fill_arguments].
    rewrite Hb, He.
    assert (Hlo : 2 <= ULONG_MAX / N * i) by nia.
    split.
    + intros [Hr Hp]. split; [lia|].
      apply IsPrimeNumber_prime; [lia|]. apply is_prime_b_true; [lia|exact Hp].
    + intros [Hr Hp]. split; [lia|].
      apply is_prime_b_true; [lia|]. apply IsPrimeNumber_prime; [lia|exact Hp].
Qed.

Lemma X14_witness :
  exists written,
    run_workers (fun _ => true) (fun _ _ => 0)
      (partition ULONG_MAX "/home/user" 4) !! Z.to_nat 3
    = Some (Some (mkWorkerResult (Some (lines written)) [] NULL))
    /\ StronglySorted Z.lt written
    /\ (forall num, num ∈ written <->
          (ULONG_MAX / 4) * 3 <= num < (ULONG_MAX / 4) * 3 + ULONG_MAX / 4
          /\ Z.prime num).
Proof.
  refine (X14_later_files_hold_exactly_the_primes_of_their_slice
            (fun _ => true) (fun _ _ => 0) "/home/user" 4 3 _ _ eq_refl
            (fun _ => eq_refl)).
  - unfold SSIZE_MAX. lia.
  - lia.
Defined.

(** ** All threads together *)

Section Batch_facts.

(** The first [n] slices of width [q], one after the other, hold what one
    pass over [[0, q * n)] finds. *)
Lemma primes_from_slices (q : Z) (n : nat) :
  0 <= q ->
  concat ((fun i => primes_from (q * i) q) <$> seqZ 0 (Z.of_nat n))
  = primes_from 0 (q * Z.of_nat n).
Proof.
  intros Hq. induction n as [|n IH].
  - rewrite seqZ_nil by lia. rewrite primes_from_nil by lia. reflexivity.
  - rewrite seqZ_S, fmap_app, concat_app, IH. simpl. rewrite app_nil_r.
    rewrite (primes_from_app 0 (q * Z.of_nat n) (q * Z.of_nat (S n))) by nia.
    do 2 f_equal; lia.
Qed.

End Batch_facts.

(** X15. When the file names fit the buffer of [FILENAME_MAX]
    characters, the threads write [N] different files.  If moreover every
    file opens and no thread reads the flag set, file [i] holds what
    [IsPrimeNumber] accepts in its slice [[i * q, i * q + q)],
    [q = floor(ULONG_MAX / N)], and the files read one after the other in
    index order are one ascending list: what [IsPrimeNumber] accepts in
    [[0, N * q)], each number once. *)
Theorem X15_files_in_index_order_are_one_ascending_list
    (fopen_ok : string -> bool) (quit : nat -> nat -> Z) (cwd : string)
    (N : Z) :
  1 <= N <= SSIZE_MAX ->
  (forall i, 0 <= i < N ->
     (String.length (cwd +:+ "/PRIMES_THREAD_" +:+ pretty i +:+ ".TXT")
      < FILENAME_MAX)%nat) ->
  (forall i, 0 <= i < N -> fopen_ok (output_file_name cwd i) = true) ->
  (forall i k, quit i k = 0) ->
  let q := ULONG_MAX / N in
  let slice := fun i => primes_from (q * i) q in
  NoDup (outputFileName <$> partition ULONG_MAX cwd N)
  /\ run_workers fopen_ok quit (partition ULONG_MAX cwd N)
     = (fun i => Some (mkWorkerResult (Some (lines (slice i))) [] NULL))
         <$> seqZ 0 N
  /\ concat (slice <$> seqZ 0 N) = primes_from 0 (N * q)
  /\ StronglySorted Z.lt (concat (slice <$> seqZ 0 N)).
Proof.
  intros HN Hfit Hopen Hquit q slice.
  assert (HD : 0 <= ULONG_MAX <= ULONG_MAX) by (unfold ULONG_MAX; lia).
  assert (HC : 1 <= N <= ULONG_MAX) by (unfold SSIZE_MAX, ULONG_MAX in *; lia).
  pose proof (slice_size_bounds ULONG_MAX N HD HC) as [Hq0 Hq1]. fold q in Hq0, Hq1.
  assert (Hcat : concat (slice <$> seqZ 0 N) = primes_from 0 (N * q)).
  { rewrite <- (Z2Nat.id N) by lia. subst slice.
    rewrite (primes_from_slices q (Z.to_nat N) Hq0). f_equal. lia. }
  split; [|split; [|split; [exact Hcat|rewrite Hcat; apply primes_from_sorted]]].
  { unfold partition. rewrite <- list_fmap_compose.
    apply NoDup_fmap_2_strong; [|apply NoDup_seqZ].
    intros i j Hi Hj Hname. apply elem_of_seqZ in Hi, Hj. simpl in Hname.
    apply (output_file_name_fits_inj cwd); try assumption; apply Hfit; lia. }
  apply list_eq. intros i.
  unfold run_workers. rewrite list_lookup_imap, !list_lookup_fmap.
  unfold partition. rewrite list_lookup_fmap.
  destruct (seqZ 0 N !! i) as [z|] eqn:E; [|reflexivity].
  apply lookup_seqZ in E as [-> Hlt]. rewrite Z.add_0_l. simpl. f_equal.
  pose proof (slice_begin_exact ULONG_MAX N HD HC (Z.of_nat i) ltac:(lia)) as Hb.
  pose proof (slice_end_exact ULONG_MAX N HD HC (Z.of_nat i) ltac:(lia)) as He.
  pose proof (slice_no_overflow ULONG_MAX N HD HC (Z.of_nat i) ltac:(lia))
    as [Hlo Hhi].
  fold q in Hb, He, Hlo, Hhi.
  rewrite PrimeNumberGenerator_never_quit.
  - cbn [beginCalculationsAt endCalculationsAt fill_arguments].
    rewrite Hb, He. subst slice. cbv beta.
    replace (q * Z.of_nat i + q - q * Z.of_nat i) with q by lia.
    reflexivity.
  - apply Hopen. lia.
  - intros k. apply Hquit.
  - cbn [beginCalculationsAt fill_arguments]. rewrite Hb. exact Hlo.
  - cbn [endCalculationsAt fill_arguments]. rewrite He. lia.
Qed.

Lemma X15_witness :
  NoDup (outputFileName <$> partition ULONG_MAX "/home/user" 4)
  /\ concat ((fun i => primes_from (ULONG_MAX / 4 * i) (ULONG_MAX / 4))
               <$> seqZ 0 4)
     = primes_from 0 (4 * (ULONG_MAX / 4)).
Proof.
  assert (H := X15_files_in_index_order_are_one_ascending_list
                 (fun _ => true) (fun _ _ => 0) "/home/user" 4).
  cbv zeta in H.
  refine ((fun H' => conj (proj1 H') (proj1 (proj2 (proj2 H'))))
            (H _ _ (fun _ _ => eq_refl) (fun _ _ => eq_refl))).
  - unfold SSIZE_MAX. lia.
  - intros i Hi.
    assert (Hcases : i = 0 \/ i = 1 \/ i = 2 \/ i = 3) by lia.
    destruct Hcases as [ -> | [ -> | [ -> | -> ] ] ]; vm_compute; lia.
Defined.
